(** * dbus_digitalinputs: pulse counting and level sensing on digital inputs

    A shallow embedding of [src/dbus_digitalinputs.py].  The closure
    variables of [main] ([services], [inputs], [pulses], [settings]) form the
    program state; every nested function of [main] is a computation in a
    small state-and-exception monad, so that a Python exception leaves the
    mutations performed before it in place, as it does in the source.

    The libraries the script drives are represented by what the script uses
    of them: a [VeDbusService] is a dictionary from paths to values, a
    [SettingsDevice] is a record of typed settings that calls the callback
    on a change, and the pulse counter is the key set of its [gpiomap].
    Opening and reading the GPIO files is taken to succeed, and the two
    threads are interleaved at the granularity of one callback, one event
    of [poll] and one run of [save_counters]. *)

From Stdlib Require Import ZArith QArith Qround.
From stdpp Require Import gmap strings list fin_maps pretty.

Open Scope Z_scope.

(** ** Module constants *)

Definition VERSION : string := "0.1".
Definition MAXCOUNT : Z := 2 ^ 31 - 1.
Definition SAVEINTERVAL : Z := 60000.

Definition INPUT_FUNCTION_COUNTER : Z := 1.
Definition INPUT_FUNCTION_INPUT : Z := 2.

Record Product := mkProduct {
  id : string;
  name : string;
  product : Z
}.

(** The [FUNCTIONS] dictionary; a key outside it is a [KeyError]. *)
Definition FUNCTIONS (f : Z) : option Product :=
  if decide (f = INPUT_FUNCTION_COUNTER)
  then Some (mkProduct "pulsemeter" "Pulse meter" 0xA163)
  else if decide (f = INPUT_FUNCTION_INPUT)
  then Some (mkProduct "digitalinput" "Digital input" 0xA164)
  else None.

Definition INPUTTYPES : list string :=
  [ "Door alarm"; "Bilge alarm"; "Burglar alarm";
    "Smoke alarm"; "Fire alarm"; "CO2 alarm" ].

Definition MAXTYPE : Z := Z.of_nat (length INPUTTYPES).

(** ** Python values and primitives *)

(** Values published on a service: ints, floats and strings.  A float is
    represented by the rational it denotes; the theorems below only use
    that a product is the product of its two operands. *)
Inductive value :=
  | VInt (z : Z)
  | VFloat (q : Q)
  | VStr (s : string).

Inductive exn :=
  | KeyError
  | IndexError
  | TypeError.

(** [l[i]] on a Python list: negative indices count from the end, anything
    else out of range raises [IndexError]. *)
Definition py_index {A} (l : list A) (i : Z) : option A :=
  let n := Z.of_nat (length l) in
  if decide (0 <= i < n) then l !! Z.to_nat i
  else if decide (- n <= i < 0) then l !! Z.to_nat (n + i)
  else None.

(** [bool(x)] and truthiness of an int. *)
Definition py_bool (z : Z) : bool := negb (z =? 0).

(** [level ^ invert] with [level] an int and [invert] a bool. *)
Definition py_xor (level : Z) (invert : bool) : Z := Z.lxor level (Z.b2z invert).

(** [x + 1]. *)
Definition py_succ (v : value) : option value :=
  match v with
  | VInt z => Some (VInt (z + 1))
  | VFloat q => Some (VFloat (q + 1))
  | VStr _ => None
  end.

(** [x % MAXCOUNT]; the result takes the sign of the (positive) modulus. *)
Definition py_mod_maxcount (v : value) : option value :=
  match v with
  | VInt z => Some (VInt (z mod MAXCOUNT))
  | VFloat q =>
      Some (VFloat (q - inject_Z MAXCOUNT * inject_Z (Qfloor (q / inject_Z MAXCOUNT))))
  | VStr _ => None
  end.

(** [x * rate] with [rate] a float. *)
Definition py_mul_rate (v : value) (rate : Q) : option value :=
  match v with
  | VInt z => Some (VFloat (inject_Z z * rate))
  | VFloat q => Some (VFloat (q * rate))
  | VStr _ => None
  end.

(** ["{:02d}".format(n)] *)
Definition format_02d (n : Z) : string :=
  let s := pretty n in
  if decide (String.length s < 2)%nat then String.append "0" s else s.

(** [enumerate(l, start)] *)
Fixpoint enumerate {A} (start : Z) (l : list A) : list (Z * A) :=
  match l with
  | [] => []
  | x :: l' => (start, x) :: enumerate (start + 1) l'
  end.

(** ** Program state *)

(** A [VeDbusService]: its bus name and the published paths with their
    values.  Reading or assigning a path that was never added is a
    [KeyError], as for the dictionary of exported objects behind
    [__getitem__] and [__setitem__]. *)
Record VeDbusService := mkService {
  servicename : string;
  dbusobjects : gmap string value
}.

(** A [SettingsDevice] built from [supported_settings]: one typed value per
    setting, with the declared default, minimum and maximum. *)
Record SettingsDevice := mkSettings {
  function : Z;
  inputtype : Z;
  rate : Q;
  count : Z;
  invert : Z
}.

Definition default_settings : SettingsDevice :=
  mkSettings 0 0 (1 # 1000) 0 0.

(** The bounds enforced by the settings store. *)
Definition settings_in_range (sd : SettingsDevice) : Prop :=
  0 <= function sd <= 2 ∧
  0 <= inputtype sd <= MAXTYPE ∧
  (0 <= rate sd <= 1)%Q ∧
  0 <= count sd <= MAXCOUNT ∧
  0 <= invert sd <= 1.

(** Command line and script name. *)
Record Args := mkArgs {
  servicebase : string;
  arg_inputs : list string;
  script_file : string
}.

(** The closure of [main].  [inputs] keeps the items of the dictionary in
    iteration order; [pulses] is the key set of the pulse counter's
    [gpiomap], which is all that [register], [unregister] and [registered]
    look at in both implementations. *)
Record State := mkState {
  args : Args;
  inputs : list (Z * string);
  services : gmap Z VeDbusService;
  settings : gmap Z SettingsDevice;
  pulses : gset Z
}.

Definition set_services (f : gmap Z VeDbusService → gmap Z VeDbusService) (st : State) : State :=
  mkState (args st) (inputs st) (f (services st)) (settings st) (pulses st).

Definition set_settings (f : gmap Z SettingsDevice → gmap Z SettingsDevice) (st : State) : State :=
  mkState (args st) (inputs st) (services st) (f (settings st)) (pulses st).

Definition set_pulses (f : gset Z → gset Z) (st : State) : State :=
  mkState (args st) (inputs st) (services st) (settings st) (f (pulses st)).

(** ** The monad *)

Inductive outcome (A : Type) :=
  | Ret (a : A) (st : State)
  | Raise (e : exn) (st : State).
Arguments Ret {A} a st.
Arguments Raise {A} e st.

Definition M (A : Type) : Type := State → outcome A.

Definition raise {A} (e : exn) : M A := fun st => Raise e st.

#[global] Instance M_ret : MRet M := fun A a st => Ret a st.

#[global] Instance M_bind : MBind M := fun A B k m st =>
  match m st with
  | Ret a st' => k a st'
  | Raise e st' => Raise e st'
  end.

Definition get : M State := fun st => Ret st st.
Definition modify (f : State → State) : M unit := fun st => Ret tt (f st).

(** Lift a partial lookup, raising [e] when it is undefined. *)
Definition lift {A} (e : exn) (o : option A) : M A :=
  fun st =>
    match o with
    | Some a => Ret a st
    | None => Raise e st
    end.

(** [for x in l: body(x)] *)
Fixpoint for_each {A} (l : list A) (body : A → M unit) : M unit :=
  match l with
  | [] => mret tt
  | x :: l' => body x;; for_each l' body
  end.

(** The state an outcome ends in, raised or not. *)
Definition final_state {A} (o : outcome A) : State :=
  match o with
  | Ret _ st => st
  | Raise _ st => st
  end.


(** ** Dictionary and service primitives *)

(** [services[gpio]] *)
Definition get_service (gpio : Z) : M VeDbusService :=
  st ← get; lift KeyError (services st !! gpio).

(** [settings[gpio]] *)
Definition get_settings (gpio : Z) : M SettingsDevice :=
  st ← get; lift KeyError (settings st !! gpio).

(** [services[gpio] = VeDbusService(name, bus=...)]: a fresh service with no
    path yet.  The Python local [dbusservice] is this table entry; the
    operations below act on it through its key. *)
Definition new_service (gpio : Z) (nm : string) : M unit :=
  modify (set_services (<[gpio := mkService nm ∅]>)).

(** [dbusservice.add_path(path, value)] *)
Definition add_path (gpio : Z) (path : string) (v : value) : M unit :=
  svc ← get_service gpio;
  modify (set_services
            (<[gpio := mkService (servicename svc) (<[path := v]> (dbusobjects svc))]>)).

(** [dbusservice[path]] *)
Definition service_getitem (gpio : Z) (path : string) : M value :=
  svc ← get_service gpio; lift KeyError (dbusobjects svc !! path).

(** [dbusservice[path] = v] *)
Definition service_setitem (gpio : Z) (path : string) (v : value) : M unit :=
  svc ← get_service gpio;
  _ ← lift KeyError (dbusobjects svc !! path);
  modify (set_services
            (<[gpio := mkService (servicename svc) (<[path := v]> (dbusobjects svc))]>)).

(** ** The pulse counter: [register], [unregister], [registered] *)

Definition pulses_register (path : string) (gpio : Z) : M unit :=
  modify (set_pulses (fun s => {[gpio]} ∪ s)).

Definition pulses_unregister (gpio : Z) : M unit :=
  st ← get;
  if decide (gpio ∈ pulses st)
  then modify (set_pulses (fun s => s ∖ {[gpio]}))
  else raise KeyError.

Definition pulses_registered (gpio : Z) : M bool :=
  st ← get; mret (bool_decide (gpio ∈ pulses st)).

(** ** [register_gpio] and [unregister_gpio] *)

Definition service_name (base : string) (function_id : string) (gpio : Z) : string :=
  String.append base
    (String.append "."
       (String.append function_id
          (String.append ".input" (format_02d gpio)))).

Definition register_gpio (path : string) (gpio : Z) (f : Z) : M unit :=
  function_ ← lift KeyError (FUNCTIONS f);
  st ← get;
  new_service gpio (service_name (servicebase (args st)) (id function_) gpio);;
  add_path gpio "/Management/ProcessName" (VStr (script_file (args st)));;
  add_path gpio "/Management/ProcessVersion" (VStr VERSION);;
  add_path gpio "/Management/Connection" (VStr path);;
  add_path gpio "/DeviceInstance" (VInt gpio);;
  add_path gpio "/ProductId" (VInt (product function_));;
  add_path gpio "/ProductName" (VStr (name function_));;
  add_path gpio "/Connected" (VInt 1);;
  add_path gpio "/Count" (VInt 0);;
  sd ← get_settings gpio;
  service_setitem gpio "/Count" (VInt (count sd));;
  (if decide (f = INPUT_FUNCTION_COUNTER) then
     add_path gpio "/Aggregate" (VInt 0);;
     sd ← get_settings gpio;
     a ← lift TypeError (py_mul_rate (VInt (count sd)) (rate sd));
     service_setitem gpio "/Aggregate" a
   else if decide (f = INPUT_FUNCTION_INPUT) then
     sd ← get_settings gpio;
     add_path gpio "/State" (VInt (invert sd));;
     sd ← get_settings gpio;
     t ← lift IndexError (py_index INPUTTYPES (Z.min (inputtype sd) (MAXTYPE - 1)));
     add_path gpio "/Type" (VStr t)
   else mret tt);;
  pulses_register path gpio.

Definition unregister_gpio (gpio : Z) : M unit :=
  pulses_unregister gpio;;
  _ ← get_service gpio;
  modify (set_services (delete gpio)).

(** ** [handle_setting_change] *)

(** The callback's arguments [(setting, old, new)], typed by the setting
    they belong to. *)
Inductive change :=
  | function_change (old new : Z)
  | inputtype_change (old new : Z)
  | rate_change (old new : Q)
  | count_change (old new : Z)
  | invert_change (old new : Z).

(** [inputs[inp]] *)
Definition get_input (inp : Z) : M string :=
  st ← get; lift KeyError ((list_to_map (inputs st) : gmap Z string) !! inp).

Definition handle_setting_change (inp : Z) (c : change) : M unit :=
  match c with
  | function_change old new =>
      if py_bool new then
        r ← pulses_registered inp;
        (if r : bool then unregister_gpio inp else mret tt);;
        pth ← get_input inp;
        register_gpio pth inp new
      else if py_bool old then
        unregister_gpio inp
      else mret tt
  | inputtype_change old new =>
      if decide (new ≠ old) then
        t ← lift IndexError (py_index INPUTTYPES (Z.min new (MAXTYPE - 1)));
        service_setitem inp "/Type" (VStr t)
      else mret tt
  | rate_change _ _ | count_change _ _ | invert_change _ _ => mret tt
  end.

(** A write to one setting of a line. *)
Inductive write :=
  | write_function (new : Z)
  | write_inputtype (new : Z)
  | write_rate (new : Q)
  | write_count (new : Z)
  | write_invert (new : Z).

Definition apply_write (w : write) (sd : SettingsDevice) : SettingsDevice :=
  match w with
  | write_function new => mkSettings new (inputtype sd) (rate sd) (count sd) (invert sd)
  | write_inputtype new => mkSettings (function sd) new (rate sd) (count sd) (invert sd)
  | write_rate new => mkSettings (function sd) (inputtype sd) new (count sd) (invert sd)
  | write_count new => mkSettings (function sd) (inputtype sd) (rate sd) new (invert sd)
  | write_invert new => mkSettings (function sd) (inputtype sd) (rate sd) (count sd) new
  end.

Definition change_of (w : write) (sd : SettingsDevice) : change :=
  match w with
  | write_function new => function_change (function sd) new
  | write_inputtype new => inputtype_change (inputtype sd) new
  | write_rate new => rate_change (rate sd) new
  | write_count new => count_change (count sd) new
  | write_invert new => invert_change (invert sd) new
  end.

(** The [SettingsDevice] of line [inp] taking a new value for one setting:
    it stores the value and then calls the callback it was given,
    [partial(handle_setting_change, inp)], with the setting's name, its
    previous value and the new one. *)
Definition setting_changed (inp : Z) (w : write) : M unit :=
  sd ← get_settings inp;
  modify (set_settings (<[inp := apply_write w sd]>));;
  handle_setting_change inp (change_of w sd).

(** ** Start-up: the loop over [inputs.items()] *)

Definition initial_state (a : Args) : State :=
  mkState a (enumerate 1 (arg_inputs a)) ∅ ∅ ∅.

(** [persisted inp] is what the settings store holds for line [inp] when its
    [SettingsDevice] is created (the defaults when it held nothing). *)
Definition startup_input (persisted : Z → SettingsDevice) (item : Z * string) : M unit :=
  let inp := item.1 in
  let pth := item.2 in
  modify (set_settings (<[inp := persisted inp]>));;
  sd ← get_settings inp;
  if decide (function sd > 0)
  then register_gpio pth inp (function sd)
  else mret tt.

Definition startup (persisted : Z → SettingsDevice) : M unit :=
  st ← get;
  for_each (inputs st) (startup_input persisted).

(** ** [poll] *)

(** The body of the loop over [pulses()], for one event [(inp, level)]. *)
Definition poll_event (ev : Z * Z) : M unit :=
  let inp := ev.1 in
  let level := ev.2 in
  st ← get;
  match services st !! inp with
  | None => mret tt
  | Some _ =>
      sd ← get_settings inp;
      let function_ := function sd in
      sd ← get_settings inp;
      let invert_ := py_bool (invert sd) in
      let level := py_xor level invert_ in
      (if py_bool level then
         c ← service_getitem inp "/Count";
         c1 ← lift TypeError (py_succ c);
         v ← lift TypeError (py_mod_maxcount c1);
         service_setitem inp "/Count" v;;
         if decide (function_ = INPUT_FUNCTION_COUNTER) then
           sd ← get_settings inp;
           a ← lift TypeError (py_mul_rate v (rate sd));
           service_setitem inp "/Aggregate" a
         else mret tt
       else mret tt);;
      if decide (function_ = INPUT_FUNCTION_INPUT)
      then service_setitem inp "/State" (VInt (Z.b2z (py_bool level) * 1))
      else mret tt
  end.

(** [poll] over a finite prefix of the event stream [pulses()], whichever
    of the two sources produces it.  A raised outcome is the [except]
    branch: the trace is printed and the main loop quits. *)
Definition poll (events : list (Z * Z)) : M unit :=
  for_each events poll_event.

(** ** [save_counters] *)

(** [settings[inp]['count'] = v]: the count setting holds ints; the write
    is a change of the setting like any other. *)
Definition settings_set_count (inp : Z) (v : value) : M unit :=
  match v with
  | VInt c => setting_changed inp (write_count c)
  | _ => _ ← get_settings inp; raise TypeError
  end.

(** The body of the loop over [inputs]. *)
Definition save_counter (item : Z * string) : M unit :=
  let inp := item.1 in
  sd ← get_settings inp;
  if decide (function sd > 0) then
    v ← service_getitem inp "/Count";
    settings_set_count inp v
  else mret tt.

Definition save_counters : M unit :=
  st ← get;
  for_each (inputs st) save_counter.

(** ** Runs of the program *)

(** What the two activities do to the state, one atomic action at a time:
    a settings write delivered to a line's callback, one event consumed by
    [poll], one run of [save_counters] (timer or shutdown). *)
Inductive op :=
  | op_setting (inp : Z) (w : write)
  | op_pulse (inp level : Z)
  | op_save.

Definition run_op (o : op) : M unit :=
  match o with
  | op_setting inp w => setting_changed inp w
  | op_pulse inp level => poll_event (inp, level)
  | op_save => save_counters
  end.

(** The state an operation leaves, whether it returned or raised: an
    exception in a settings callback is reported and the process goes on
    with whatever the callback had done by then. *)
Definition step (st : State) (o : op) : State := final_state (run_op o st).

Definition run (st : State) (ops : list op) : State := foldl step st ops.

(** The settings store only delivers values within the declared bounds. *)
Definition write_in_range (w : write) : Prop :=
  match w with
  | write_function new => 0 <= new <= 2
  | write_inputtype new => 0 <= new <= MAXTYPE
  | write_rate new => (0 <= new <= 1)%Q
  | write_count new => 0 <= new <= MAXCOUNT
  | write_invert new => 0 <= new <= 1
  end.

Definition valid_op (o : op) : Prop :=
  match o with
  | op_setting _ w => write_in_range w
  | op_pulse _ _ => True
  | op_save => True
  end.

(** The state [main] reaches before the main loop starts. *)
Definition started (a : Args) (persisted : Z → SettingsDevice) : State :=
  final_state (startup persisted (initial_state a)).

(** ** Observations *)

(** The value published by line [inp] at [path], if any. *)
Definition published (st : State) (inp : Z) (path : string) : option value :=
  services st !! inp ≫= λ svc, dbusobjects svc !! path.

(** The set of paths line [inp] publishes. *)
Definition published_paths (st : State) (inp : Z) : option (gset string) :=
  (λ svc, dom (dbusobjects svc)) <$> services st !! inp.

(** [INPUTTYPES[min(t, MAXTYPE-1)]] *)
Definition type_name (t : Z) : option string :=
  py_index INPUTTYPES (Z.min t (MAXTYPE - 1)).

(** The level [poll] acts on after applying the line's polarity. *)
Definition effective_level (sd : SettingsDevice) (level : Z) : Z :=
  py_xor level (py_bool (invert sd)).

(** Whether an event is for line [inp] and truthy after inversion. *)
Definition rising (st : State) (inp : Z) (ev : Z * Z) : bool :=
  bool_decide (ev.1 = inp) &&
  match settings st !! inp with
  | Some sd => py_bool (effective_level sd ev.2)
  | None => false
  end.

Definition rising_count (st : State) (inp : Z) (events : list (Z * Z)) : Z :=
  Z.of_nat (length (filter (λ ev, rising st inp ev = true) events)).

(** The paths every service carries, and those of each function. *)
Definition common_paths : gset string :=
  {[ "/Management/ProcessName"; "/Management/ProcessVersion";
     "/Management/Connection"; "/DeviceInstance"; "/ProductId";
     "/ProductName"; "/Connected"; "/Count" ]}.

Definition counter_paths : gset string := common_paths ∪ {[ "/Aggregate" ]}.
Definition input_paths : gset string := common_paths ∪ {[ "/State"; "/Type" ]}.

(** The objects [register_gpio] leaves on the service it creates. *)
Definition common_objects (a : Args) (path : string) (gpio : Z) (p : Product)
    : gmap string value :=
  <["/Count" := VInt 0]>
  (<["/Connected" := VInt 1]>
  (<["/ProductName" := VStr (name p)]>
  (<["/ProductId" := VInt (product p)]>
  (<["/DeviceInstance" := VInt gpio]>
  (<["/Management/Connection" := VStr path]>
  (<["/Management/ProcessVersion" := VStr VERSION]>
  (<["/Management/ProcessName" := VStr (script_file a)]> ∅))))))).

Definition counter_service (a : Args) (path : string) (gpio : Z) (sd : SettingsDevice)
    : VeDbusService :=
  mkService (service_name (servicebase a) "pulsemeter" gpio)
    (<["/Aggregate" := VFloat (inject_Z (count sd) * rate sd)]>
    (<["/Aggregate" := VInt 0]>
    (<["/Count" := VInt (count sd)]>
       (common_objects a path gpio (mkProduct "pulsemeter" "Pulse meter" 0xA163))))).

Definition input_service (a : Args) (path : string) (gpio : Z) (sd : SettingsDevice)
    (t : string) : VeDbusService :=
  mkService (service_name (servicebase a) "digitalinput" gpio)
    (<["/Type" := VStr t]>
    (<["/State" := VInt (invert sd)]>
    (<["/Count" := VInt (count sd)]>
       (common_objects a path gpio (mkProduct "digitalinput" "Digital input" 0xA164))))).

(** The service [register_gpio] builds for function [f]. *)
Definition fresh_service (f : Z) (a : Args) (pth : string) (inp : Z)
    (sd : SettingsDevice) (t : string) : VeDbusService :=
  if decide (f = INPUT_FUNCTION_COUNTER) then counter_service a pth inp sd
  else input_service a pth inp sd t.

(** What one event does to the objects of a line whose [/Count] is [c]. *)
Definition poll_objects (sd : SettingsDevice) (level c : Z)
    (objs : gmap string value) : gmap string value :=
  let lvl := effective_level sd level in
  let objs1 :=
    if py_bool lvl then
      let v := (c + 1) mod MAXCOUNT in
      let o := <["/Count" := VInt v]> objs in
      if decide (function sd = INPUT_FUNCTION_COUNTER)
      then <["/Aggregate" := VFloat (inject_Z v * rate sd)]> o
      else o
    else objs in
  if decide (function sd = INPUT_FUNCTION_INPUT)
  then <["/State" := VInt (Z.b2z (py_bool lvl) * 1)]> objs1
  else objs1.

(** ** Invariants *)

(** A line with settings [sd] is in step with the services table and the
    pulse counter. *)
Record line_ok (st : State) (inp : Z) (sd : SettingsDevice) : Prop := {
  ok_range : settings_in_range sd;
  ok_registered : inp ∈ pulses st ↔ is_Some (services st !! inp);
  ok_enabled : is_Some (services st !! inp) ↔ function sd ≠ 0;
  ok_count : function sd ≠ 0 →
    ∃ c, published st inp "/Count" = Some (VInt c) ∧ 0 <= c <= MAXCOUNT;
  ok_counter : function sd = INPUT_FUNCTION_COUNTER →
    published_paths st inp = Some counter_paths;
  ok_input : function sd = INPUT_FUNCTION_INPUT →
    published_paths st inp = Some input_paths ∧
    published st inp "/Type" = VStr <$> type_name (inputtype sd)
}.

(** Consistency of the settings of the lines [keys] with the rest. *)
Record consistent_on (keys : list Z) (st : State) : Prop := {
  c_settings : ∀ inp, is_Some (settings st !! inp) ↔ inp ∈ keys;
  c_lines : ∀ inp sd, settings st !! inp = Some sd → line_ok st inp sd;
  c_orphans : ∀ inp, settings st !! inp = None →
    services st !! inp = None ∧ inp ∉ pulses st
}.

Record consistent (st : State) : Prop := {
  c_nodup : NoDup (inputs st).*1;
  c_on : consistent_on (inputs st).*1 st
}.

(** [/Aggregate] is [/Count] times the rate setting, on counter lines. *)
Definition aggregate_ok (st : State) (inp : Z) : Prop :=
  ∀ sd, settings st !! inp = Some sd →
    function sd = INPUT_FUNCTION_COUNTER →
    ∃ c, published st inp "/Count" = Some (VInt c) ∧
         published st inp "/Aggregate" = Some (VFloat (inject_Z c * rate sd)).

(** What [save_counters] leaves in the settings of a line. *)
Definition saved (st : State) (inp : Z) (sd : SettingsDevice) : SettingsDevice :=
  if decide (function sd > 0) then
    match published st inp "/Count" with
    | Some (VInt c) => apply_write (write_count c) sd
    | _ => sd
    end
  else sd.

(** One increment of [/Count] in [poll]. *)
Definition bump (c : Z) : Z := (c + 1) mod MAXCOUNT.

(** ** Concrete configurations *)

(** Two inputs; line 1 counts pulses from a persisted count of 5 at rate
    0.001, line 2 is an inverted level sensor. *)
Definition example_args : Args :=
  mkArgs "com.victronenergy" ["/in/0"; "/in/1"] "dbus_digitalinputs.py".

Definition example_persisted (inp : Z) : SettingsDevice :=
  if decide (inp = 1) then mkSettings 1 0 (1 # 1000) 5 0
  else mkSettings 2 0 (1 # 1000) 0 1.

Definition example_state : State := started example_args example_persisted.

(** Line 1 counts pulses and its persisted count is the largest value the
    settings store accepts. *)
Definition full_persisted (inp : Z) : SettingsDevice :=
  if decide (inp = 1) then mkSettings 1 0 (1 # 1000) MAXCOUNT 0
  else default_settings.

Definition full_state : State := started example_args full_persisted.

(** One turn of [DebugPulseCounter.__call__] through [cycle([0, 1])]: every
    registered line at level 0, then every registered line at level 1. *)
Definition debug_cycle (st : State) : list (Z * Z) :=
  ((λ gpio, (gpio, 0)) <$> elements (pulses st)) ++
  ((λ gpio, (gpio, 1)) <$> elements (pulses st)).

(** The catalog entry the specification assigns to a type index: the entry
    at that index, and the last entry for an index past the end. *)
Definition catalog_entry (t : Z) : option string :=
  if decide (MAXTYPE <= t) then last INPUTTYPES else INPUTTYPES !! Z.to_nat t.

(** The operations that write [/Aggregate] of line [inp]: a function write
    for the line (which registers it anew when the value is non-zero) and
    an event of the line that is truthy after inversion. *)
Definition establishes (st : State) (o : op) (inp : Z) : Prop :=
  match o with
  | op_setting j (write_function _) => j = inp
  | op_pulse j level => rising st inp (j, level) = true
  | _ => False
  end.

(** Whether [o] writes the rate setting of line [inp]. *)
Definition writes_rate (o : op) (inp : Z) : Prop :=
  match o with
  | op_setting j (write_rate _) => j = inp
  | _ => False
  end.

(** ** A checker for consistency *)

Definition in_rangeb (sd : SettingsDevice) : bool :=
  bool_decide (0 <= function sd <= 2) &&
  bool_decide (0 <= inputtype sd <= MAXTYPE) &&
  Qle_bool 0 (rate sd) && Qle_bool (rate sd) 1 &&
  bool_decide (0 <= count sd <= MAXCOUNT) &&
  bool_decide (0 <= invert sd <= 1).

Definition is_VStr (o : option value) (s : option string) : bool :=
  match o, s with
  | Some (VStr x), Some y => bool_decide (x = y)
  | _, _ => false
  end.

Definition line_okb (st : State) (inp : Z) (sd : SettingsDevice) : bool :=
  in_rangeb sd &&
  bool_decide (inp ∈ pulses st ↔ is_Some (services st !! inp)) &&
  bool_decide (is_Some (services st !! inp) ↔ function sd ≠ 0) &&
  (bool_decide (function sd = 0) ||
   match published st inp "/Count" with
   | Some (VInt c) => bool_decide (0 <= c <= MAXCOUNT)
   | _ => false
   end) &&
  (bool_decide (function sd ≠ INPUT_FUNCTION_COUNTER) ||
   bool_decide (published_paths st inp = Some counter_paths)) &&
  (bool_decide (function sd ≠ INPUT_FUNCTION_INPUT) ||
   (bool_decide (published_paths st inp = Some input_paths) &&
    is_VStr (published st inp "/Type") (type_name (inputtype sd)))).

Definition consistentb (st : State) : bool :=
  bool_decide (NoDup (inputs st).*1) &&
  bool_decide (dom (settings st) = list_to_set (inputs st).*1) &&
  bool_decide (dom (services st) ⊆ dom (settings st)) &&
  bool_decide (pulses st ⊆ dom (settings st)) &&
  forallb (λ item, line_okb st item.1 item.2) (map_to_list (settings st)).

(** ** The pulse sources *)

(** Exceptions of the sources, besides those of [main]. *)
Inductive source_exn :=
  | Builtin (e : exn)
  | IOError
  | ValueError
  | ZeroDivisionError.

(** The outcome of a method of a source whose state has type [S]. *)
Inductive source_outcome (S A : Type) :=
  | Done (a : A) (s : S)
  | Failed (e : source_exn) (s : S).
Arguments Done {S A} a s.
Arguments Failed {S A} e s.

(** *** [EpollPulseCounter] *)

(** [fdmap] sends a descriptor to its line, [gpiomap] a line to its open
    file, which is represented by the descriptor [fileno()] returns for it;
    [ob] holds the descriptors given to [ob.register] and not since given
    to [ob.unregister]. *)
Record EpollPulseCounter := mkEpoll {
  fdmap : gmap Z Z;
  gpiomap : gmap Z Z;
  ob : gset Z
}.

(** [EpollPulseCounter()] *)
Definition epoll_init : EpollPulseCounter := mkEpoll ∅ ∅ ∅.

(** [register(path, gpio)].  [opened] is what the two [open] calls give:
    [None] when one of them fails, which is before the counter is touched,
    and otherwise the descriptor of the file opened on the line.
    [ob.register] refuses a descriptor it already holds. *)
Definition epoll_register (opened : option Z) (gpio : Z) (pc : EpollPulseCounter)
    : source_outcome EpollPulseCounter unit :=
  match opened with
  | None => Failed IOError pc
  | Some fd =>
      let pc1 := mkEpoll (<[fd := gpio]> (fdmap pc)) (<[gpio := fd]> (gpiomap pc)) (ob pc) in
      if decide (fd ∈ ob pc) then Failed IOError pc1
      else Done tt (mkEpoll (fdmap pc1) (gpiomap pc1) ({[fd]} ∪ ob pc))
  end.

(** [unregister(gpio)] *)
Definition epoll_unregister (gpio : Z) (pc : EpollPulseCounter)
    : source_outcome EpollPulseCounter unit :=
  match gpiomap pc !! gpio with
  | None => Failed (Builtin KeyError) pc
  | Some fd =>
      if decide (fd ∈ ob pc) then
        let pc1 := mkEpoll (fdmap pc) (delete gpio (gpiomap pc)) (ob pc ∖ {[fd]}) in
        match fdmap pc !! fd with
        | None => Failed (Builtin KeyError) pc1
        | Some _ => Done tt (mkEpoll (delete fd (fdmap pc)) (gpiomap pc1) (ob pc1))
        end
      else Failed IOError pc
  end.

(** [registered(gpio)] *)
Definition epoll_registered (gpio : Z) (pc : EpollPulseCounter) : bool :=
  bool_decide (is_Some (gpiomap pc !! gpio)).

(** [int(v)] for what [os.read(fd, 1)] returns: the empty string at end of
    file, or one byte. *)
Definition int_of_read (v : option Ascii.ascii) : option Z :=
  match v with
  | None => None
  | Some c =>
      let n := Z.of_nat (Ascii.nat_of_ascii c) in
      if decide (48 <= n <= 57) then Some (n - 48) else None
  end.

(** The body of the loop over [self.ob.poll(1)] for one ready descriptor
    [fd] on which [os.read] gave [v]: the event it yields. *)
Definition epoll_event (pc : EpollPulseCounter) (ready : Z * option Ascii.ascii)
    : source_exn + (Z * Z) :=
  match fdmap pc !! ready.1 with
  | None => inl (Builtin KeyError)
  | Some gpio =>
      match int_of_read ready.2 with
      | None => inl ValueError
      | Some level => inr (gpio, level)
      end
  end.

(** The events of one call of [self.ob.poll(1)], up to the first failure. *)
Fixpoint epoll_events (pc : EpollPulseCounter) (ready : list (Z * option Ascii.ascii))
    : source_exn + list (Z * Z) :=
  match ready with
  | [] => inr []
  | r :: ready' =>
      match epoll_event pc r with
      | inl e => inl e
      | inr ev =>
          match epoll_events pc ready' with
          | inl e => inl e
          | inr evs => inr (ev :: evs)
          end
      end
  end.

(** The descriptors, lines and epoll set of the counter tell the same
    story. *)
Definition epoll_ok (pc : EpollPulseCounter) : Prop :=
  (∀ fd gpio, fdmap pc !! fd = Some gpio ↔ gpiomap pc !! gpio = Some fd) ∧
  ob pc = dom (fdmap pc).

(** *** [DebugPulseCounter] *)

(** Where the generator [__call__] stands: not started, or suspended at
    its [yield] in the pass for [level] with [rest] of the key snapshot
    still to come. *)
Inductive debug_gen :=
  | gen_new
  | gen_yielded (level : bool) (rest : list Z).

(** What resuming the generator gives while the registered lines are [p]:
    the next event, an exception, or no event at all (with no line
    registered the loop over [cycle([0, 1])] goes round without yielding
    or sleeping). *)
Inductive debug_result :=
  | Yielded (ev : Z * Z) (g : debug_gen)
  | Raised (e : source_exn)
  | Spinning.

(** The rest of the inner loop, then the next level with a new snapshot of
    the keys. *)
Definition debug_pass (p : gset Z) (level : bool) (rest : list Z) : debug_result :=
  match rest with
  | gpio :: rest' => Yielded (gpio, Z.b2z level) (gen_yielded level rest')
  | [] =>
      match elements p with
      | [] => Spinning
      | gpio :: rest' =>
          Yielded (gpio, Z.b2z (negb level)) (gen_yielded (negb level) rest')
      end
  end.

(** [next()] on the generator.  After a [yield] it first evaluates
    [sleep(0.25/len(self.gpiomap))]. *)
Definition debug_next (p : gset Z) (g : debug_gen) : debug_result :=
  match g with
  | gen_new => debug_pass p true []
  | gen_yielded level rest =>
      if decide (size p = 0%nat) then Raised ZeroDivisionError
      else debug_pass p level rest
  end.

(** The first [n] events while the registered lines stay [p]. *)
Fixpoint debug_take (n : nat) (p : gset Z) (g : debug_gen) : list (Z * Z) :=
  match n with
  | O => []
  | S n' =>
      match debug_next p g with
      | Yielded ev g' => ev :: debug_take n' p g'
      | _ => []
      end
  end.

(** The generator after [n] events while the registered lines stay [p]. *)
Fixpoint debug_after (n : nat) (p : gset Z) (g : debug_gen) : option debug_gen :=
  match n with
  | O => Some g
  | S n' =>
      match debug_next p g with
      | Yielded _ g' => debug_after n' p g'
      | _ => None
      end
  end.

(** ** Identity of a published line *)

(** The fields of a service that say which line and which function it is
    for. *)
Definition identity_ok (st : State) (inp : Z) : Prop :=
  ∀ svc sd,
    services st !! inp = Some svc → settings st !! inp = Some sd →
    ∃ p pth,
      FUNCTIONS (function sd) = Some p ∧
      (list_to_map (inputs st) : gmap Z string) !! inp = Some pth ∧
      servicename svc = service_name (servicebase (args st)) (id p) inp ∧
      dbusobjects svc !! "/DeviceInstance" = Some (VInt inp) ∧
      dbusobjects svc !! "/ProductId" = Some (VInt (product p)) ∧
      dbusobjects svc !! "/ProductName" = Some (VStr (name p)) ∧
      dbusobjects svc !! "/Connected" = Some (VInt 1) ∧
      dbusobjects svc !! "/Management/Connection" = Some (VStr pth) ∧
      dbusobjects svc !! "/Management/ProcessName" = Some (VStr (script_file (args st))) ∧
      dbusobjects svc !! "/Management/ProcessVersion" = Some (VStr VERSION).

(** The settings a restart finds: what the store holds for each line, the
    defaults for a line it holds nothing for. *)
Definition stored (st : State) (inp : Z) : SettingsDevice :=
  default default_settings (settings st !! inp).

(** The service start-up gives a line with path [pth] and persisted
    settings [sd]: none when the function is 0. *)
Definition line_service (a : Args) (pth : string) (inp : Z) (sd : SettingsDevice)
    : option VeDbusService :=
  if decide (function sd > 0)
  then fresh_service (function sd) a pth inp sd <$> type_name (inputtype sd)
  else None.

(** * Lemmas *)

(** ** Evaluating computations *)

Lemma bind_Ret {A B} (m : M A) (k : A → M B) st a st' :
  m st = Ret a st' → (m ≫= k) st = k a st'.
Proof. intros H. unfold mbind, M_bind. by rewrite H. Qed.

Lemma bind_Raise {A B} (m : M A) (k : A → M B) st e st' :
  m st = Raise e st' → (m ≫= k) st = Raise e st'.
Proof. intros H. unfold mbind, M_bind. by rewrite H. Qed.

Lemma bind_assoc {A B C} (m : M A) (k : A → M B) (k' : B → M C) st :
  ((m ≫= k) ≫= k') st = (m ≫= λ a, k a ≫= k') st.
Proof. unfold mbind, M_bind. by destruct (m st). Qed.

Lemma get_eval st : get st = Ret st st.
Proof. reflexivity. Qed.

Lemma lift_Some {A} e (o : option A) a st : o = Some a → lift e o st = Ret a st.
Proof. by intros ->. Qed.

Lemma lift_None {A} e (o : option A) st : o = None → lift e o st = Raise e st.
Proof. by intros ->. Qed.

Lemma get_service_Some st gpio svc :
  services st !! gpio = Some svc → get_service gpio st = Ret svc st.
Proof. intros H. unfold get_service. rewrite (bind_Ret _ _ _ _ _ (get_eval st)). by apply lift_Some. Qed.

Lemma get_service_None st gpio :
  services st !! gpio = None → get_service gpio st = Raise KeyError st.
Proof. intros H. unfold get_service. rewrite (bind_Ret _ _ _ _ _ (get_eval st)). by apply lift_None. Qed.

Lemma get_settings_Some st gpio sd :
  settings st !! gpio = Some sd → get_settings gpio st = Ret sd st.
Proof. intros H. unfold get_settings. rewrite (bind_Ret _ _ _ _ _ (get_eval st)). by apply lift_Some. Qed.

Lemma get_settings_None st gpio :
  settings st !! gpio = None → get_settings gpio st = Raise KeyError st.
Proof. intros H. unfold get_settings. rewrite (bind_Ret _ _ _ _ _ (get_eval st)). by apply lift_None. Qed.

(** One step of a computation whose head is evaluated by [lem]. *)
Ltac mstep lem :=
  rewrite ?bind_assoc; erewrite bind_Ret by (eapply lem; eauto); cbv beta.
Ltac mstep_by lem tac :=
  rewrite ?bind_assoc; erewrite bind_Ret by (eapply lem; tac); cbv beta.
Ltac mfail lem :=
  rewrite ?bind_assoc; erewrite bind_Raise by (eapply lem; eauto).

Lemma add_path_eval a i sv se p gpio nm objs path v :
  add_path gpio path v (mkState a i (<[gpio := mkService nm objs]> sv) se p) =
    Ret tt (mkState a i (<[gpio := mkService nm (<[path := v]> objs)]> sv) se p).
Proof.
  unfold add_path. mstep_by get_service_Some ltac:(apply lookup_insert_eq).
  unfold modify, set_services. simpl. by rewrite insert_insert_eq.
Qed.

Lemma service_setitem_eval a i sv se p gpio nm objs path v :
  is_Some (objs !! path) →
  service_setitem gpio path v (mkState a i (<[gpio := mkService nm objs]> sv) se p) =
    Ret tt (mkState a i (<[gpio := mkService nm (<[path := v]> objs)]> sv) se p).
Proof.
  intros [x Hx]. unfold service_setitem. mstep_by get_service_Some ltac:(apply lookup_insert_eq).
  mstep @lift_Some.
  unfold modify, set_services. simpl. by rewrite insert_insert_eq.
Qed.

Lemma service_setitem_missing st gpio svc path v :
  services st !! gpio = Some svc → dbusobjects svc !! path = None →
  service_setitem gpio path v st = Raise KeyError st.
Proof.
  intros Hs Hp. unfold service_setitem. mstep get_service_Some.
  mfail @lift_None. done.
Qed.

Lemma service_setitem_at st gpio svc path v :
  services st !! gpio = Some svc → is_Some (dbusobjects svc !! path) →
  service_setitem gpio path v st =
    Ret tt (set_services
              (<[gpio := mkService (servicename svc) (<[path := v]> (dbusobjects svc))]>) st).
Proof.
  intros Hs [x Hx]. unfold service_setitem. mstep get_service_Some.
  mstep @lift_Some. done.
Qed.

Lemma service_getitem_eval st gpio svc path v :
  services st !! gpio = Some svc → dbusobjects svc !! path = Some v →
  service_getitem gpio path st = Ret v st.
Proof.
  intros Hs Hp. unfold service_getitem. mstep get_service_Some. by apply lift_Some.
Qed.

Lemma MAXTYPE_eq : MAXTYPE = 6.
Proof. reflexivity. Qed.

Lemma MAXCOUNT_eq : MAXCOUNT = 2147483647.
Proof. reflexivity. Qed.

Lemma type_name_some t :
  0 <= t → ∃ s, type_name t = Some s.
Proof.
  intros Ht. unfold type_name. rewrite MAXTYPE_eq.
  assert (Hc : Z.min t (6 - 1) = 0 ∨ Z.min t (6 - 1) = 1 ∨ Z.min t (6 - 1) = 2 ∨
               Z.min t (6 - 1) = 3 ∨ Z.min t (6 - 1) = 4 ∨ Z.min t (6 - 1) = 5) by lia.
  destruct Hc as [-> | [-> | [-> | [-> | [-> | ->]]]]]; eexists; reflexivity.
Qed.

Lemma register_gpio_counter st path gpio sd :
  settings st !! gpio = Some sd →
  register_gpio path gpio INPUT_FUNCTION_COUNTER st =
    Ret tt (mkState (args st) (inputs st)
              (<[gpio := counter_service (args st) path gpio sd]> (services st))
              (settings st) ({[gpio]} ∪ pulses st)).
Proof.
  intros H. destruct st as [a i sv se p]. simpl in H. unfold register_gpio.
  mstep_by @lift_Some ltac:(reflexivity).
  mstep get_eval.
  erewrite bind_Ret by reflexivity. cbv beta.
  do 8 mstep add_path_eval.
  mstep get_settings_Some.
  mstep_by service_setitem_eval ltac:(rewrite lookup_insert_eq; eauto).
  rewrite decide_True by reflexivity.
  mstep add_path_eval. mstep get_settings_Some. mstep_by @lift_Some ltac:(reflexivity).
  mstep_by service_setitem_eval ltac:(rewrite lookup_insert_eq; eauto).
  reflexivity.
Qed.

Lemma register_gpio_input st path gpio sd t :
  settings st !! gpio = Some sd →
  type_name (inputtype sd) = Some t →
  register_gpio path gpio INPUT_FUNCTION_INPUT st =
    Ret tt (mkState (args st) (inputs st)
              (<[gpio := input_service (args st) path gpio sd t]> (services st))
              (settings st) ({[gpio]} ∪ pulses st)).
Proof.
  intros H Ht. destruct st as [a i sv se p]. simpl in H. unfold register_gpio.
  mstep_by @lift_Some ltac:(reflexivity).
  mstep get_eval.
  erewrite bind_Ret by reflexivity. cbv beta.
  do 8 mstep add_path_eval.
  mstep get_settings_Some.
  mstep_by service_setitem_eval ltac:(rewrite lookup_insert_eq; eauto).
  rewrite decide_False by done. rewrite decide_True by reflexivity.
  mstep get_settings_Some. mstep add_path_eval. mstep get_settings_Some.
  mstep @lift_Some. 
  mstep add_path_eval.
  reflexivity.
Qed.

Lemma register_gpio_unknown st path gpio f :
  f ≠ INPUT_FUNCTION_COUNTER → f ≠ INPUT_FUNCTION_INPUT →
  register_gpio path gpio f st = Raise KeyError st.
Proof.
  intros H1 H2. unfold register_gpio.
  apply bind_Raise, lift_None. unfold FUNCTIONS. by rewrite !decide_False.
Qed.

Lemma pulses_unregister_eval st gpio :
  gpio ∈ pulses st →
  pulses_unregister gpio st = Ret tt (set_pulses (λ s, s ∖ {[gpio]}) st).
Proof.
  intros Hp. unfold pulses_unregister. mstep get_eval. by rewrite decide_True.
Qed.

Lemma unregister_gpio_registered st gpio svc :
  gpio ∈ pulses st → services st !! gpio = Some svc →
  unregister_gpio gpio st =
    Ret tt (mkState (args st) (inputs st) (delete gpio (services st))
              (settings st) (pulses st ∖ {[gpio]})).
Proof.
  intros Hp Hs. unfold unregister_gpio.
  mstep pulses_unregister_eval. mstep get_service_Some. reflexivity.
Qed.

Lemma unregister_gpio_unregistered st gpio :
  gpio ∉ pulses st → unregister_gpio gpio st = Raise KeyError st.
Proof.
  intros Hp. unfold unregister_gpio. apply bind_Raise.
  unfold pulses_unregister. mstep get_eval. by rewrite decide_False.
Qed.

(** ** The services built by [register_gpio] *)

Lemma counter_service_paths a path gpio sd :
  dom (dbusobjects (counter_service a path gpio sd)) = counter_paths.
Proof.
  unfold counter_service, common_objects, counter_paths, common_paths. simpl.
  rewrite !dom_insert_L, dom_empty_L. set_solver.
Qed.

Lemma input_service_paths a path gpio sd t :
  dom (dbusobjects (input_service a path gpio sd t)) = input_paths.
Proof.
  unfold input_service, common_objects, input_paths, common_paths. simpl.
  rewrite !dom_insert_L, dom_empty_L. set_solver.
Qed.

Lemma counter_service_count a path gpio sd :
  dbusobjects (counter_service a path gpio sd) !! "/Count" = Some (VInt (count sd)).
Proof.
  unfold counter_service. simpl.
  rewrite !lookup_insert_ne by done. apply lookup_insert_eq.
Qed.

Lemma counter_service_aggregate a path gpio sd :
  dbusobjects (counter_service a path gpio sd) !! "/Aggregate" =
    Some (VFloat (inject_Z (count sd) * rate sd)).
Proof. unfold counter_service. simpl. apply lookup_insert_eq. Qed.

Lemma input_service_count a path gpio sd t :
  dbusobjects (input_service a path gpio sd t) !! "/Count" = Some (VInt (count sd)).
Proof.
  unfold input_service. simpl.
  rewrite !lookup_insert_ne by done. apply lookup_insert_eq.
Qed.


Lemma input_service_type a path gpio sd t :
  dbusobjects (input_service a path gpio sd t) !! "/Type" = Some (VStr t).
Proof. unfold input_service. simpl. apply lookup_insert_eq. Qed.

(** Membership in the path sets, decided by computation. *)
Lemma counter_paths_spec p :
  p ∈ counter_paths ↔ p ∈ common_paths ∨ p = "/Aggregate".
Proof. unfold counter_paths. set_solver. Qed.

Lemma input_paths_spec p :
  p ∈ input_paths ↔ p ∈ common_paths ∨ p = "/State" ∨ p = "/Type".
Proof. unfold input_paths. set_solver. Qed.



Lemma type_not_counter : "/Type" ∉ counter_paths.
Proof. apply (bool_decide_unpack _). by vm_compute. Qed.

(** ** One event of [poll] *)

Lemma poll_event_absent st inp level :
  services st !! inp = None → poll_event (inp, level) st = Ret tt st.
Proof.
  intros H. unfold poll_event. simpl. mstep get_eval. by rewrite H.
Qed.

Lemma set_services_twice f g st :
  set_services f (set_services g st) = set_services (f ∘ g) st.
Proof. reflexivity. Qed.

Lemma poll_event_present st inp level svc sd c :
  services st !! inp = Some svc →
  settings st !! inp = Some sd →
  dbusobjects svc !! "/Count" = Some (VInt c) →
  (function sd = INPUT_FUNCTION_COUNTER → is_Some (dbusobjects svc !! "/Aggregate")) →
  (function sd = INPUT_FUNCTION_INPUT → is_Some (dbusobjects svc !! "/State")) →
  poll_event (inp, level) st =
    Ret tt (set_services
              (<[inp := mkService (servicename svc)
                          (poll_objects sd level c (dbusobjects svc))]>) st).
Proof.
  intros Hs Hd Hc Ha Hst. unfold poll_event, poll_objects, effective_level. simpl.
  mstep get_eval. rewrite Hs.
  mstep get_settings_Some. mstep get_settings_Some.
  assert (Hputs : ∀ (o : gmap string value) p v w,
            <[inp := mkService (servicename svc) (<[p := v]> o)]>
              (<[inp := w]> (services st)) =
            <[inp := mkService (servicename svc) (<[p := v]> o)]> (services st)).
  { intros. apply insert_insert_eq. }
  destruct (decide (function sd = INPUT_FUNCTION_COUNTER)) as [Hf|Hf];
    destruct (decide (function sd = INPUT_FUNCTION_INPUT)) as [Hg|Hg];
    [ rewrite Hf in Hg; discriminate | .. ];
    destruct (py_bool (py_xor level (py_bool (invert sd)))) eqn:Hl.
  - mstep service_getitem_eval.
    mstep_by @lift_Some ltac:(reflexivity).
    mstep_by @lift_Some ltac:(reflexivity).
    mstep service_setitem_at.
    mstep get_settings_Some.
    mstep_by @lift_Some ltac:(reflexivity).
    erewrite bind_Ret.
    2:{ apply service_setitem_at.
        - simpl. apply lookup_insert_eq.
        - simpl. rewrite lookup_insert_ne by done. auto. }
    unfold mret, M_ret, set_services. simpl. by rewrite Hputs.
  - erewrite bind_Ret by reflexivity.
    unfold mret, M_ret, set_services.
    destruct st as [a i sv se p]. simpl in *.
    rewrite insert_id; [done|]. rewrite Hs. by destruct svc.
  - mstep service_getitem_eval.
    mstep_by @lift_Some ltac:(reflexivity).
    mstep_by @lift_Some ltac:(reflexivity).
    mstep service_setitem_at.
    erewrite bind_Ret by reflexivity.
    erewrite service_setitem_at.
    2:{ simpl. apply lookup_insert_eq. }
    2:{ simpl. rewrite lookup_insert_ne by done. auto. }
    unfold set_services. simpl. by rewrite Hputs.
  - erewrite bind_Ret by reflexivity.
    by apply service_setitem_at; auto.
  - mstep service_getitem_eval.
    mstep_by @lift_Some ltac:(reflexivity).
    mstep_by @lift_Some ltac:(reflexivity).
    mstep service_setitem_at.
    erewrite bind_Ret by reflexivity. reflexivity.
  - erewrite bind_Ret by reflexivity.
    unfold mret, M_ret, set_services.
    destruct st as [a i sv se p]. simpl in *.
    rewrite insert_id; [done|]. rewrite Hs. by destruct svc.
Qed.

(** ** Settings changes *)

Lemma py_bool_true z : py_bool z = true ↔ z ≠ 0.
Proof. unfold py_bool. destruct (Z.eqb_spec z 0); simpl; split; intros; try done; lia. Qed.

Lemma py_bool_false z : py_bool z = false ↔ z = 0.
Proof. unfold py_bool. destruct (Z.eqb_spec z 0); simpl; split; intros; try done; lia. Qed.

Lemma pulses_registered_eval st gpio :
  pulses_registered gpio st = Ret (bool_decide (gpio ∈ pulses st)) st.
Proof. reflexivity. Qed.

Lemma get_input_Some st inp pth :
  (list_to_map (inputs st) : gmap Z string) !! inp = Some pth →
  get_input inp st = Ret pth st.
Proof. intros H. unfold get_input. mstep get_eval. by apply lift_Some. Qed.

Lemma setting_changed_eval st inp w sd :
  settings st !! inp = Some sd →
  setting_changed inp w st =
    handle_setting_change inp (change_of w sd)
      (set_settings (<[inp := apply_write w sd]>) st).
Proof.
  intros H. unfold setting_changed. mstep get_settings_Some.
  by erewrite bind_Ret by reflexivity.
Qed.

Lemma setting_changed_unknown st inp w :
  settings st !! inp = None → setting_changed inp w st = Raise KeyError st.
Proof.
  intros H. unfold setting_changed. by apply bind_Raise, get_settings_None.
Qed.

Lemma register_gpio_eval st pth gpio f sd t :
  f = INPUT_FUNCTION_COUNTER ∨ f = INPUT_FUNCTION_INPUT →
  settings st !! gpio = Some sd →
  type_name (inputtype sd) = Some t →
  register_gpio pth gpio f st =
    Ret tt (mkState (args st) (inputs st)
              (<[gpio := fresh_service f (args st) pth gpio sd t]> (services st))
              (settings st) ({[gpio]} ∪ pulses st)).
Proof.
  intros [-> | ->] Hs Ht; unfold fresh_service.
  - rewrite decide_True by done. by apply register_gpio_counter.
  - rewrite decide_False by done. by apply register_gpio_input.
Qed.

(** Enabling a line, or switching it between the two functions. *)
Lemma function_enabled st inp sd new pth t :
  settings st !! inp = Some sd →
  new = INPUT_FUNCTION_COUNTER ∨ new = INPUT_FUNCTION_INPUT →
  (inp ∈ pulses st → is_Some (services st !! inp)) →
  (list_to_map (inputs st) : gmap Z string) !! inp = Some pth →
  type_name (inputtype sd) = Some t →
  setting_changed inp (write_function new) st =
    Ret tt (mkState (args st) (inputs st)
              (<[inp := fresh_service new (args st) pth inp
                          (apply_write (write_function new) sd) t]> (services st))
              (<[inp := apply_write (write_function new) sd]> (settings st))
              ({[inp]} ∪ pulses st)).
Proof.
  intros Hs Hnew Hreg Hin Ht. rewrite (setting_changed_eval _ _ _ _ Hs). simpl.
  assert (py_bool new = true) as -> by (apply py_bool_true; destruct Hnew as [-> | ->]; done).
  mstep pulses_registered_eval.
  destruct (decide (inp ∈ pulses st)) as [Hp|Hp].
  - rewrite bool_decide_eq_true_2 by done.
    destruct (Hreg Hp) as [svc Hsvc].
    mstep unregister_gpio_registered.
    mstep get_input_Some.
    rewrite (register_gpio_eval _ pth inp new (apply_write (write_function new) sd) t);
      [ | done | simpl; apply lookup_insert_eq | done ].
    simpl. f_equal. f_equal.
    + by rewrite insert_delete_eq.
    + apply set_eq. intros x. rewrite !elem_of_union, elem_of_difference, !elem_of_singleton.
      destruct (decide (x = inp)); tauto.
  - rewrite bool_decide_eq_false_2 by done.
    erewrite bind_Ret by reflexivity.
    mstep get_input_Some.
    rewrite (register_gpio_eval _ pth inp new (apply_write (write_function new) sd) t);
      [ done | done | simpl; apply lookup_insert_eq | done ].
Qed.

(** Disabling a registered line. *)
Lemma function_disabled st inp sd svc :
  settings st !! inp = Some sd →
  function sd ≠ 0 →
  inp ∈ pulses st → services st !! inp = Some svc →
  setting_changed inp (write_function 0) st =
    Ret tt (mkState (args st) (inputs st) (delete inp (services st))
              (<[inp := apply_write (write_function 0) sd]> (settings st))
              (pulses st ∖ {[inp]})).
Proof.
  intros Hs Hf Hp Hsvc. rewrite (setting_changed_eval _ _ _ _ Hs). simpl.
  assert (py_bool (function sd) = true) as -> by by apply py_bool_true.
  by erewrite unregister_gpio_registered.
Qed.

Lemma function_stays_disabled st inp sd :
  settings st !! inp = Some sd →
  function sd = 0 →
  setting_changed inp (write_function 0) st =
    Ret tt (set_settings (<[inp := apply_write (write_function 0) sd]>) st).
Proof.
  intros Hs Hf. rewrite (setting_changed_eval _ _ _ _ Hs). simpl.
  by rewrite Hf.
Qed.

Lemma inputtype_unchanged st inp sd :
  settings st !! inp = Some sd →
  setting_changed inp (write_inputtype (inputtype sd)) st =
    Ret tt (set_settings (<[inp := apply_write (write_inputtype (inputtype sd)) sd]>) st).
Proof.
  intros Hs. rewrite (setting_changed_eval _ _ _ _ Hs). simpl.
  by rewrite decide_False by (intros H; by apply H).
Qed.

Lemma inputtype_changed st inp sd svc new t :
  settings st !! inp = Some sd →
  new ≠ inputtype sd →
  type_name new = Some t →
  services st !! inp = Some svc →
  is_Some (dbusobjects svc !! "/Type") →
  setting_changed inp (write_inputtype new) st =
    Ret tt (mkState (args st) (inputs st)
              (<[inp := mkService (servicename svc)
                          (<["/Type" := VStr t]> (dbusobjects svc))]> (services st))
              (<[inp := apply_write (write_inputtype new) sd]> (settings st))
              (pulses st)).
Proof.
  intros Hs Hne Ht Hsvc Hty. rewrite (setting_changed_eval _ _ _ _ Hs). simpl.
  rewrite decide_True by done.
  mstep @lift_Some.
  by erewrite service_setitem_at.
Qed.

Lemma inputtype_changed_disabled st inp sd new t :
  settings st !! inp = Some sd →
  new ≠ inputtype sd →
  type_name new = Some t →
  services st !! inp = None →
  setting_changed inp (write_inputtype new) st =
    Raise KeyError (set_settings (<[inp := apply_write (write_inputtype new) sd]>) st).
Proof.
  intros Hs Hne Ht Hsvc. rewrite (setting_changed_eval _ _ _ _ Hs). simpl.
  rewrite decide_True by done.
  mstep @lift_Some.
  unfold service_setitem. by apply bind_Raise, get_service_None.
Qed.

Lemma inputtype_changed_no_type st inp sd svc new t :
  settings st !! inp = Some sd →
  new ≠ inputtype sd →
  type_name new = Some t →
  services st !! inp = Some svc →
  dbusobjects svc !! "/Type" = None →
  setting_changed inp (write_inputtype new) st =
    Raise KeyError (set_settings (<[inp := apply_write (write_inputtype new) sd]>) st).
Proof.
  intros Hs Hne Ht Hsvc Hty. rewrite (setting_changed_eval _ _ _ _ Hs). simpl.
  rewrite decide_True by done.
  mstep @lift_Some.
  by erewrite service_setitem_missing.
Qed.

Lemma other_setting_changed st inp sd w :
  settings st !! inp = Some sd →
  match w with write_function _ | write_inputtype _ => False | _ => True end →
  setting_changed inp w st = Ret tt (set_settings (<[inp := apply_write w sd]>) st).
Proof.
  intros Hs Hw. rewrite (setting_changed_eval _ _ _ _ Hs).
  by destruct w.
Qed.

(** ** Observations *)

Lemma published_Some st inp svc path :
  services st !! inp = Some svc → published st inp path = dbusobjects svc !! path.
Proof. intros H. unfold published. by rewrite H. Qed.

Lemma published_None st inp path :
  services st !! inp = None → published st inp path = None.
Proof. intros H. unfold published. by rewrite H. Qed.

Lemma published_paths_Some st inp svc :
  services st !! inp = Some svc → published_paths st inp = Some (dom (dbusobjects svc)).
Proof. intros H. unfold published_paths. by rewrite H. Qed.

Lemma published_in_paths st inp path ps :
  published_paths st inp = Some ps →
  is_Some (published st inp path) ↔ path ∈ ps.
Proof.
  unfold published_paths, published. destruct (services st !! inp) as [svc|]; [|done].
  simpl. intros [= <-]. by rewrite elem_of_dom.
Qed.

(** ** Invariant preservation *)

Lemma settings_in_range_write w sd :
  settings_in_range sd → write_in_range w → settings_in_range (apply_write w sd).
Proof.
  unfold settings_in_range. intros (?&?&?&?&?) Hw. destruct w; simpl in *; tauto.
Qed.

(** A line is untouched by changes made elsewhere. *)
Lemma line_ok_frame st st' j sd :
  services st' !! j = services st !! j →
  (j ∈ pulses st' ↔ j ∈ pulses st) →
  line_ok st j sd → line_ok st' j sd.
Proof.
  intros Hs Hp [H1 H2 H3 H4 H5 H6].
  assert (Hpub : ∀ p, published st' j p = published st j p)
    by (intros p; unfold published; by rewrite Hs).
  assert (Hpaths : published_paths st' j = published_paths st j)
    by (unfold published_paths; by rewrite Hs).
  split.
  - done.
  - by rewrite Hs, Hp.
  - by rewrite Hs.
  - intros Hf. rewrite Hpub. auto.
  - rewrite Hpaths. auto.
  - rewrite Hpaths, Hpub. auto.
Qed.

(** Only the settings of the line changed, and nothing [poll] or the
    registry depends on. *)
Lemma line_ok_settings_only st st' inp sd sd' :
  services st' = services st → pulses st' = pulses st →
  function sd' = function sd →
  (function sd = INPUT_FUNCTION_INPUT → inputtype sd' = inputtype sd) →
  settings_in_range sd' →
  line_ok st inp sd → line_ok st' inp sd'.
Proof.
  intros Hs Hp Hf Ht Hr Hok.
  apply (line_ok_frame st st') in Hok; [| by rewrite Hs | by rewrite Hp].
  destruct Hok as [H1 H2 H3 H4 H5 H6].
  split.
  - done.
  - done.
  - by rewrite Hf.
  - rewrite Hf. auto.
  - rewrite Hf. auto.
  - rewrite Hf. intros Hg. rewrite (Ht Hg). auto.
Qed.

Lemma consistent_on_update keys keys' st st' inp sd' :
  consistent_on keys st →
  (∀ j, j ∈ keys' ↔ j = inp ∨ j ∈ keys) →
  settings st' !! inp = Some sd' →
  (∀ j, j ≠ inp → settings st' !! j = settings st !! j) →
  (∀ j, j ≠ inp → services st' !! j = services st !! j) →
  (∀ j, j ≠ inp → (j ∈ pulses st' ↔ j ∈ pulses st)) →
  line_ok st' inp sd' →
  consistent_on keys' st'.
Proof.
  intros [C1 C2 C3] Hk Hs Hse Hsv Hp Hok. split.
  - intros j. rewrite Hk. destruct (decide (j = inp)) as [-> | Hne].
    + rewrite Hs. split; eauto.
    + rewrite Hse, C1 by done. tauto.
  - intros j sd Hj. destruct (decide (j = inp)) as [-> | Hne].
    + rewrite Hs in Hj. by injection Hj as <-.
    + rewrite Hse in Hj by done. apply (line_ok_frame st); auto.
  - intros j Hj. destruct (decide (j = inp)) as [-> | Hne]; [congruence|].
    rewrite Hse in Hj by done. rewrite Hsv, Hp by done. auto.
Qed.

Lemma line_ok_registered st inp sd a pth t :
  services st !! inp = Some (fresh_service (function sd) a pth inp sd t) →
  inp ∈ pulses st →
  settings_in_range sd →
  function sd = INPUT_FUNCTION_COUNTER ∨ function sd = INPUT_FUNCTION_INPUT →
  type_name (inputtype sd) = Some t →
  line_ok st inp sd.
Proof.
  intros Hs Hp Hr Hf Ht.
  assert (Hne : function sd ≠ 0) by (destruct Hf as [-> | ->]; done).
  split.
  - done.
  - rewrite Hs. split; eauto.
  - rewrite Hs. split; eauto.
  - intros _. exists (count sd). rewrite (published_Some _ _ _ _ Hs). split.
    + unfold fresh_service. case_decide.
      * apply counter_service_count.
      * apply input_service_count.
    + apply Hr.
  - intros Hc. rewrite (published_paths_Some _ _ _ Hs). unfold fresh_service.
    rewrite decide_True by done. by rewrite counter_service_paths.
  - intros Hi. rewrite (published_paths_Some _ _ _ Hs), (published_Some _ _ _ _ Hs).
    unfold fresh_service.
    rewrite decide_False by (rewrite Hi; done).
    by rewrite input_service_paths, input_service_type, Ht.
Qed.

Lemma line_ok_disabled st inp sd :
  services st !! inp = None → inp ∉ pulses st →
  settings_in_range sd → function sd = 0 →
  line_ok st inp sd.
Proof.
  intros Hs Hp Hr Hf. split.
  - done.
  - rewrite Hs. split; [done|]. by intros [? ?].
  - rewrite Hs, Hf. split; [by intros [? ?] | done].
  - by rewrite Hf.
  - by rewrite Hf.
  - by rewrite Hf.
Qed.

(** ** The objects after one event *)

Lemma poll_objects_count sd level c objs :
  objs !! "/Count" = Some (VInt c) →
  poll_objects sd level c objs !! "/Count" =
    Some (VInt (if py_bool (effective_level sd level)
                then (c + 1) mod MAXCOUNT else c)).
Proof.
  intros Hc. unfold poll_objects.
  destruct (py_bool (effective_level sd level));
    repeat case_decide;
    rewrite ?(lookup_insert_ne _ "/State"), ?(lookup_insert_ne _ "/Aggregate") by done;
    by rewrite ?lookup_insert_eq.
Qed.

Lemma poll_objects_other sd level c objs path :
  path ≠ "/Count" → path ≠ "/Aggregate" → path ≠ "/State" →
  poll_objects sd level c objs !! path = objs !! path.
Proof.
  intros H1 H2 H3. unfold poll_objects.
  destruct (py_bool (effective_level sd level));
    repeat case_decide; by rewrite ?lookup_insert_ne by done.
Qed.

Lemma dom_insert_present (objs : gmap string value) path v :
  path ∈ dom objs → dom (<[path := v]> objs) = dom objs.
Proof.
  intros H. rewrite dom_insert_L. apply set_eq. intros x.
  rewrite elem_of_union, elem_of_singleton. split; [intros [-> | ?]; done | auto].
Qed.

Lemma poll_objects_dom sd level c objs :
  "/Count" ∈ dom objs →
  (function sd = INPUT_FUNCTION_COUNTER → "/Aggregate" ∈ dom objs) →
  (function sd = INPUT_FUNCTION_INPUT → "/State" ∈ dom objs) →
  dom (poll_objects sd level c objs) = dom objs.
Proof.
  intros Hc Ha Hs. unfold poll_objects.
  destruct (py_bool (effective_level sd level)); repeat case_decide;
    rewrite ?dom_insert_present; auto;
    rewrite ?dom_insert_present; auto;
    rewrite ?dom_insert_present; auto.
Qed.

Lemma poll_objects_state sd level c objs :
  function sd = INPUT_FUNCTION_INPUT →
  poll_objects sd level c objs !! "/State" =
    Some (VInt (Z.b2z (py_bool (effective_level sd level)))).
Proof.
  intros Hf. unfold poll_objects. rewrite (decide_True _ _ Hf).
  by rewrite lookup_insert_eq, Z.mul_1_r.
Qed.

Lemma poll_objects_aggregate sd level c objs :
  function sd = INPUT_FUNCTION_COUNTER →
  py_bool (effective_level sd level) = true →
  poll_objects sd level c objs !! "/Aggregate" =
    Some (VFloat (inject_Z ((c + 1) mod MAXCOUNT) * rate sd)).
Proof.
  intros Hf Hl. unfold poll_objects. rewrite Hl, (decide_True _ _ Hf).
  rewrite decide_False by (rewrite Hf; done).
  by rewrite lookup_insert_eq.
Qed.

Lemma poll_objects_falling sd level c objs path :
  py_bool (effective_level sd level) = false →
  path ≠ "/State" →
  poll_objects sd level c objs !! path = objs !! path.
Proof.
  intros Hl Hp. unfold poll_objects. rewrite Hl.
  case_decide; by rewrite ?lookup_insert_ne by done.
Qed.

Lemma function_cases sd :
  settings_in_range sd →
  function sd = 0 ∨ function sd = INPUT_FUNCTION_COUNTER ∨ function sd = INPUT_FUNCTION_INPUT.
Proof.
  unfold settings_in_range, INPUT_FUNCTION_COUNTER, INPUT_FUNCTION_INPUT. lia.
Qed.

(** What consistency gives for a line that has a service. *)
Lemma line_ready keys st inp svc :
  consistent_on keys st →
  services st !! inp = Some svc →
  ∃ sd c,
    settings st !! inp = Some sd ∧ line_ok st inp sd ∧ function sd ≠ 0 ∧
    dbusobjects svc !! "/Count" = Some (VInt c) ∧ 0 <= c <= MAXCOUNT ∧
    (function sd = INPUT_FUNCTION_COUNTER → is_Some (dbusobjects svc !! "/Aggregate")) ∧
    (function sd = INPUT_FUNCTION_INPUT → is_Some (dbusobjects svc !! "/State")).
Proof.
  intros [C1 C2 C3] Hs.
  destruct (settings st !! inp) as [sd|] eqn:Hsd.
  2:{ destruct (C3 _ Hsd) as [Hn _]. congruence. }
  pose proof (C2 _ _ Hsd) as Hok.
  assert (Hf : function sd ≠ 0) by (apply (ok_enabled _ _ _ Hok); eauto).
  destruct (ok_count _ _ _ Hok Hf) as (c & Hc & Hr).
  rewrite (published_Some _ _ _ _ Hs) in Hc.
  exists sd, c. do 5 (split; [done|]). split; intros Hg.
  - pose proof (ok_counter _ _ _ Hok Hg) as Hp.
    rewrite <- (published_Some _ _ _ _ Hs).
    apply (published_in_paths _ _ _ _ Hp), counter_paths_spec. by right.
  - destruct (ok_input _ _ _ Hok Hg) as [Hp _].
    rewrite <- (published_Some _ _ _ _ Hs).
    apply (published_in_paths _ _ _ _ Hp), input_paths_spec. right. by left.
Qed.

Lemma poll_event_spec keys st inp level svc sd c :
  consistent_on keys st →
  services st !! inp = Some svc →
  settings st !! inp = Some sd →
  dbusobjects svc !! "/Count" = Some (VInt c) →
  poll_event (inp, level) st =
    Ret tt (set_services
              (<[inp := mkService (servicename svc)
                          (poll_objects sd level c (dbusobjects svc))]>) st).
Proof.
  intros Hc Hs Hsd Hcount.
  destruct (line_ready _ _ _ _ Hc Hs) as (sd' & c' & Hsd' & _ & _ & _ & _ & Ha & Hst).
  assert (sd' = sd) as -> by congruence.
  by apply poll_event_present.
Qed.

Lemma mod_MAXCOUNT_range z : 0 <= z mod MAXCOUNT <= MAXCOUNT.
Proof.
  pose proof (Z.mod_pos_bound z MAXCOUNT). rewrite MAXCOUNT_eq in *. lia.
Qed.

Lemma poll_event_consistent keys st ev :
  consistent_on keys st →
  ∃ st', poll_event ev st = Ret tt st' ∧ consistent_on keys st' ∧
         settings st' = settings st ∧ pulses st' = pulses st ∧
         args st' = args st ∧ inputs st' = inputs st ∧
         ∀ j, j ≠ ev.1 → services st' !! j = services st !! j.
Proof.
  intros Hc. destruct ev as [inp level].
  destruct (services st !! inp) as [svc|] eqn:Hs.
  2:{ exists st. rewrite poll_event_absent by done. by split_and!. }
  destruct (line_ready _ _ _ _ Hc Hs) as (sd & c & Hsd & Hok & Hf & Hcount & Hr & Ha & Hst).
  eexists. split; [by eapply poll_event_spec|].
  split; [|split_and!; try done; intros j Hj; simpl; by rewrite lookup_insert_ne].
  apply (consistent_on_update keys keys st _ inp sd); simpl; try done.
  - intros j. split; [auto|]. intros [-> | ?]; [|done]. apply (c_settings _ _ Hc). eauto.
  - intros j Hj. by rewrite lookup_insert_ne.
  - set (objs := poll_objects sd level c (dbusobjects svc)).
    assert (Hdom : dom objs = dom (dbusobjects svc)).
    { apply poll_objects_dom.
      - apply elem_of_dom. eauto.
      - intros Hg. by apply elem_of_dom, Ha.
      - intros Hg. by apply elem_of_dom, Hst. }
    destruct Hok as [H1 H2 H3 H4 H5 H6].
    rewrite (published_paths_Some _ _ _ Hs) in H5, H6.
    rewrite (published_Some _ _ _ _ Hs) in H6.
    split; simpl.
    + done.
    + rewrite lookup_insert_eq. rewrite H2, Hs. split; eauto.
    + rewrite lookup_insert_eq. rewrite <- H3, Hs. split; eauto.
    + intros _. unfold published. simpl. rewrite lookup_insert_eq. simpl.
      unfold objs. rewrite (poll_objects_count _ _ _ _ Hcount).
      eexists. split; [done|].
      destruct (py_bool _); [apply mod_MAXCOUNT_range | done].
    + intros Hg. unfold published_paths. simpl. rewrite lookup_insert_eq. simpl.
      rewrite Hdom. auto.
    + intros Hg. unfold published_paths, published. simpl. rewrite lookup_insert_eq. simpl.
      rewrite Hdom. split; [by apply H6|].
      unfold objs. rewrite poll_objects_other by done. by apply H6.
Qed.

Lemma inputs_lookup (l : list (Z * string)) inp :
  inp ∈ l.*1 → is_Some ((list_to_map l : gmap Z string) !! inp).
Proof.
  intros H. destruct (list_to_map l !! inp) eqn:E; [eauto|].
  by apply not_elem_of_list_to_map in E.
Qed.

Lemma elem_of_add_other (j inp : Z) (p : gset Z) :
  j ≠ inp → j ∈ {[inp]} ∪ p ↔ j ∈ p.
Proof. intros H. rewrite elem_of_union, elem_of_singleton. tauto. Qed.

Lemma elem_of_remove_other (j inp : Z) (p : gset Z) :
  j ≠ inp → j ∈ p ∖ {[inp]} ↔ j ∈ p.
Proof. intros H. rewrite elem_of_difference, elem_of_singleton. tauto. Qed.

Ltac frame :=
  simpl; intros;
  rewrite ?lookup_insert_ne, ?lookup_delete_ne,
    ?elem_of_add_other, ?elem_of_remove_other by done;
  done.

Lemma type_name_in_range sd :
  settings_in_range sd → ∃ t, type_name (inputtype sd) = Some t.
Proof. intros (_ & [H _] & _). by apply type_name_some. Qed.

(** Every settings write within the declared bounds keeps the state
    consistent, whether the callback returns or raises. *)
Lemma setting_changed_consistent st inp w :
  consistent st → write_in_range w →
  consistent (final_state (setting_changed inp w st)) ∧
  inputs (final_state (setting_changed inp w st)) = inputs st ∧
  args (final_state (setting_changed inp w st)) = args st.
Proof.
  intros [Hnd Hc] Hw.
  destruct (settings st !! inp) as [sd|] eqn:Hsd.
  2:{ rewrite setting_changed_unknown by done. by split_and!. }
  pose proof (c_lines _ _ Hc _ _ Hsd) as Hok.
  pose proof (ok_range _ _ _ Hok) as Hr.
  pose proof (settings_in_range_write w sd Hr Hw) as Hr'.
  assert (Hkey : inp ∈ (inputs st).*1) by (apply (c_settings _ _ Hc); eauto).
  assert (Hkeys : ∀ j, j ∈ (inputs st).*1 ↔ j = inp ∨ j ∈ (inputs st).*1)
    by (intros j; split; [auto | by intros [-> | ?]]).
  assert (Hsame : ∀ sd', function sd' = function sd →
            (function sd = INPUT_FUNCTION_INPUT → inputtype sd' = inputtype sd) →
            settings_in_range sd' →
            consistent (set_settings (<[inp := sd']>) st)).
  { intros sd' Hf Ht Hrr. split; [done|]. simpl.
    eapply (consistent_on_update (inputs st).*1 _ st _ inp sd'); try done; try frame.
    - simpl. apply lookup_insert_eq.
    - by apply (line_ok_settings_only st _ inp sd). }
  cut (consistent (final_state (setting_changed inp w st)) ∧
       inputs (final_state (setting_changed inp w st)) = inputs st ∧
       args (final_state (setting_changed inp w st)) = args st); [done|].
  destruct w as [new | new | new | new | new];
    try (rewrite (other_setting_changed _ _ _ _ Hsd) by done; simpl;
         split; [by apply Hsame | done]).
  - (* function *)
    simpl in Hw.
    destruct (decide (new = 0)) as [-> | Hnew].
    + destruct (decide (function sd = 0)) as [Hf | Hf].
      * rewrite (function_stays_disabled _ _ _ Hsd Hf). simpl.
        split; [by apply Hsame | done].
      * assert (Hsvc : is_Some (services st !! inp)) by by apply (ok_enabled _ _ _ Hok).
        destruct Hsvc as [svc Hsvc].
        assert (Hp : inp ∈ pulses st) by (apply (ok_registered _ _ _ Hok); eauto).
        rewrite (function_disabled _ _ _ _ Hsd Hf Hp Hsvc). simpl.
        split; [|done]. split; [done|]. simpl.
        eapply (consistent_on_update (inputs st).*1 _ st _ inp); try done; try frame.
        -- simpl. apply lookup_insert_eq.
        -- apply line_ok_disabled; simpl; try done.
           ++ apply lookup_delete_eq.
           ++ rewrite elem_of_difference, elem_of_singleton. tauto.
    + assert (Hn : new = INPUT_FUNCTION_COUNTER ∨ new = INPUT_FUNCTION_INPUT)
        by (unfold INPUT_FUNCTION_COUNTER, INPUT_FUNCTION_INPUT; lia).
      destruct (inputs_lookup _ _ Hkey) as [pth Hpth].
      destruct (type_name_in_range _ Hr) as [t Ht].
      rewrite (function_enabled _ _ _ _ pth t Hsd Hn); try done.
      2:{ apply (ok_registered _ _ _ Hok). }
      simpl. split; [|done]. split; [done|]. simpl.
      eapply (consistent_on_update (inputs st).*1 _ st _ inp); try done; try frame.
      -- simpl. apply lookup_insert_eq.
      -- eapply line_ok_registered; simpl; try done.
         ++ apply lookup_insert_eq.
         ++ rewrite elem_of_union, elem_of_singleton. by left.
  - (* inputtype *)
    simpl in Hw.
    destruct (decide (new = inputtype sd)) as [-> | Hnew].
    { rewrite (inputtype_unchanged _ _ _ Hsd). simpl. split; [by apply Hsame | done]. }
    destruct (type_name_some new) as [t Ht]; [lia|].
    destruct (services st !! inp) as [svc|] eqn:Hsvc.
    2:{ rewrite (inputtype_changed_disabled _ _ _ _ t Hsd) by done. simpl.
        split; [|done]. apply Hsame; try done. intros Hf.
        assert (is_Some (services st !! inp)) as [? ?]; [|congruence].
        apply (ok_enabled _ _ _ Hok). by rewrite Hf. }
    destruct (dbusobjects svc !! "/Type") as [ty|] eqn:Hty.
    2:{ rewrite (inputtype_changed_no_type _ _ _ svc _ t Hsd) by done. simpl.
        split; [|done]. apply Hsame; try done. intros Hf.
        destruct (ok_input _ _ _ Hok Hf) as [_ Hpub].
        rewrite (published_Some _ _ _ _ Hsvc), Hty in Hpub.
        destruct (type_name_in_range _ Hr) as [t' Ht']. by rewrite Ht' in Hpub. }
    rewrite (inputtype_changed _ _ _ svc _ t Hsd) by eauto. simpl.
    split; [|done]. split; [done|]. simpl.
    eapply (consistent_on_update (inputs st).*1 _ st _ inp); try done; try frame.
    { simpl. apply lookup_insert_eq. }
    assert (Hpd : dom (<["/Type" := VStr t]> (dbusobjects svc)) = dom (dbusobjects svc)).
    { apply dom_insert_present, elem_of_dom. eauto. }
    destruct Hok as [H1 H2 H3 H4 H5 H6].
    rewrite (published_paths_Some _ _ _ Hsvc) in H5, H6.
    rewrite (published_Some _ _ _ _ Hsvc) in H6.
    split; simpl.
    + done.
    + rewrite lookup_insert_eq. rewrite H2, Hsvc. split; eauto.
    + rewrite lookup_insert_eq. rewrite <- H3, Hsvc. split; eauto.
    + intros Hf. destruct (H4 Hf) as (c & Hc1 & Hc2). exists c. split; [|done].
      rewrite (published_Some _ _ _ _ Hsvc) in Hc1.
      unfold published. simpl. rewrite lookup_insert_eq. simpl.
      by rewrite lookup_insert_ne.
    + intros Hf. unfold published_paths. simpl. rewrite lookup_insert_eq. simpl.
      rewrite Hpd. auto.
    + intros Hf. unfold published_paths, published. simpl. rewrite lookup_insert_eq.
      simpl. rewrite Hpd, lookup_insert_eq, Ht. split; [by apply H6 | done].
Qed.

(** ** [save_counters] *)

Lemma saved_frame st st' inp sd :
  services st' = services st → saved st' inp sd = saved st inp sd.
Proof. intros H. unfold saved, published. by rewrite H. Qed.

Lemma saved_function st inp sd : function (saved st inp sd) = function sd.
Proof.
  unfold saved. case_decide; [|done].
  by destruct (published st inp "/Count") as [[]|].
Qed.

Lemma saved_inputtype st inp sd : inputtype (saved st inp sd) = inputtype sd.
Proof.
  unfold saved. case_decide; [|done].
  by destruct (published st inp "/Count") as [[]|].
Qed.

Lemma set_settings_id st inp sd :
  settings st !! inp = Some sd → set_settings (<[inp := sd]>) st = st.
Proof.
  intros H. destruct st as [a i sv se p]. unfold set_settings. simpl in *.
  by rewrite insert_id.
Qed.

Lemma save_counter_eval keys st inp pth sd :
  consistent_on keys st →
  settings st !! inp = Some sd →
  save_counter (inp, pth) st = Ret tt (set_settings (<[inp := saved st inp sd]>) st) ∧
  settings_in_range (saved st inp sd).
Proof.
  intros Hc Hsd. pose proof (c_lines _ _ Hc _ _ Hsd) as Hok.
  pose proof (ok_range _ _ _ Hok) as Hr.
  unfold save_counter, saved. simpl. mstep get_settings_Some.
  destruct (decide (function sd > 0)) as [Hf | Hf].
  2:{ split; [|done]. by rewrite set_settings_id. }
  destruct (ok_count _ _ _ Hok) as (c & Hcount & Hcr); [lia|].
  rewrite Hcount. unfold published in Hcount.
  destruct (services st !! inp) as [svc|] eqn:Hsvc; [|done]. simpl in Hcount.
  split.
  - mstep service_getitem_eval. simpl.
    by apply (other_setting_changed _ _ sd (write_count c)).
  - by apply (settings_in_range_write (write_count c) sd).
Qed.

Lemma save_loop keys l st :
  consistent_on keys st →
  NoDup l.*1 → (∀ k, k ∈ l.*1 → k ∈ keys) →
  ∃ st', for_each l save_counter st = Ret tt st' ∧
         consistent_on keys st' ∧
         args st' = args st ∧ inputs st' = inputs st ∧
         services st' = services st ∧ pulses st' = pulses st ∧
         ∀ inp, settings st' !! inp =
                  if decide (inp ∈ l.*1)
                  then saved st inp <$> settings st !! inp
                  else settings st !! inp.
Proof.
  revert st. induction l as [| [k pth] l IH]; intros st Hc Hnd Hsub.
  - exists st. by split_and!.
  - simpl in Hnd. apply NoDup_cons in Hnd as [Hk Hnd].
    assert (Hsd : is_Some (settings st !! k)).
    { apply (c_settings _ _ Hc), Hsub. simpl. apply list_elem_of_here. }
    destruct Hsd as [sd Hsd].
    destruct (save_counter_eval _ _ _ pth _ Hc Hsd) as [Hev Hr].
    set (st1 := set_settings (<[k := saved st k sd]>) st) in *.
    assert (Hc1 : consistent_on keys st1).
    { eapply (consistent_on_update keys _ st _ k); try done; try frame.
      - intros j. split; [auto|]. intros [-> | ?]; [|done].
        apply (c_settings _ _ Hc). eauto.
      - simpl. apply lookup_insert_eq.
      - apply (line_ok_settings_only st _ k sd); try done.
        + apply saved_function.
        + intros _. apply saved_inputtype.
        + by apply (c_lines _ _ Hc). }
    destruct (IH st1 Hc1 Hnd) as (st' & Hrun & Hc' & Ha & Hi & Hs & Hp & Hset).
    { intros j Hj. apply Hsub. simpl. by apply list_elem_of_further. }
    exists st'. split_and!; try done.
    + simpl. by mstep Hev.
    + intros inp. rewrite Hset. simpl.
      destruct (decide (inp = k)) as [-> | Hne].
      * rewrite decide_False by done.
        rewrite decide_True by apply list_elem_of_here.
        by rewrite lookup_insert_eq, Hsd.
      * rewrite lookup_insert_ne by done.
        destruct (decide (inp ∈ l.*1)) as [Hin | Hin].
        -- rewrite decide_True by by apply list_elem_of_further.
           destruct (settings st !! inp); [|done]. simpl.
           by rewrite (saved_frame st st1).
        -- rewrite decide_False; [done|].
           rewrite elem_of_cons. tauto.
Qed.

Lemma save_counters_spec st :
  consistent st →
  ∃ st', save_counters st = Ret tt st' ∧
         consistent st' ∧
         args st' = args st ∧ inputs st' = inputs st ∧
         services st' = services st ∧ pulses st' = pulses st ∧
         ∀ inp, settings st' !! inp = saved st inp <$> settings st !! inp.
Proof.
  intros [Hnd Hc].
  destruct (save_loop _ (inputs st) st Hc Hnd) as (st' & Hrun & Hc' & Ha & Hi & Hs & Hp & Hset);
    [done|].
  exists st'. split_and!; try done.
  - split; by rewrite Hi.
  - intros inp. rewrite Hset. case_decide as Hin; [done|].
    destruct (settings st !! inp) eqn:E; [|done].
    exfalso. apply Hin, (c_settings _ _ Hc). eauto.
Qed.

(** ** Start-up *)

Lemma enumerate_keys {A} (l : list A) start k :
  k ∈ (enumerate start l).*1 → start <= k.
Proof.
  revert start. induction l as [|x l IH]; intros start; simpl.
  - intros H. by apply not_elem_of_nil in H.
  - rewrite elem_of_cons. intros [-> | H]; [lia|]. apply IH in H. lia.
Qed.

Lemma enumerate_NoDup {A} (l : list A) start : NoDup (enumerate start l).*1.
Proof.
  revert start. induction l as [|x l IH]; intros start; simpl.
  - apply NoDup_nil_2.
  - apply NoDup_cons. split; [|apply IH].
    intros H. apply enumerate_keys in H. lia.
Qed.

Lemma startup_input_eval persisted keys st inp pth :
  consistent_on keys st →
  inp ∉ keys →
  settings_in_range (persisted inp) →
  ∃ st', startup_input persisted (inp, pth) st = Ret tt st' ∧
         consistent_on (keys ++ [inp]) st' ∧
         args st' = args st ∧ inputs st' = inputs st.
Proof.
  intros Hc Hk Hr. set (sd := persisted inp).
  assert (Hnone : settings st !! inp = None).
  { destruct (settings st !! inp) eqn:E; [|done].
    exfalso. apply Hk, (c_settings _ _ Hc). eauto. }
  destruct (c_orphans _ _ Hc _ Hnone) as [Hsv Hp].
  assert (Hkeys : ∀ j, j ∈ keys ++ [inp] ↔ j = inp ∨ j ∈ keys).
  { intros j. rewrite elem_of_app, list_elem_of_singleton. tauto. }
  unfold startup_input. simpl.
  erewrite bind_Ret by reflexivity.
  mstep_by get_settings_Some ltac:(simpl; apply lookup_insert_eq).
  fold sd.
  destruct (decide (function sd > 0)) as [Hf | Hf].
  - assert (Hn : function sd = INPUT_FUNCTION_COUNTER ∨ function sd = INPUT_FUNCTION_INPUT).
    { destruct Hr as [? _]. fold sd in H.
      unfold INPUT_FUNCTION_COUNTER, INPUT_FUNCTION_INPUT. lia. }
    destruct (type_name_in_range _ Hr) as [t Ht]. fold sd in Ht.
    rewrite (register_gpio_eval _ pth inp (function sd) sd t);
      [ | done | simpl; apply lookup_insert_eq | done ].
    eexists. split; [done|]. split; [|done].
    eapply (consistent_on_update keys _ st _ inp); try done; try frame.
    + simpl. apply lookup_insert_eq.
    + eapply line_ok_registered; simpl; try done.
      * apply lookup_insert_eq.
      * rewrite elem_of_union, elem_of_singleton. by left.
  - eexists. split; [done|]. split; [|done].
    eapply (consistent_on_update keys _ st _ inp); try done; try frame.
    + simpl. apply lookup_insert_eq.
    + apply line_ok_disabled; simpl; try done.
      destruct Hr as [? _]. fold sd in H. lia.
Qed.

Lemma startup_loop persisted l keys st :
  (∀ inp, settings_in_range (persisted inp)) →
  consistent_on keys st →
  NoDup l.*1 → (∀ k, k ∈ l.*1 → k ∉ keys) →
  ∃ st', for_each l (startup_input persisted) st = Ret tt st' ∧
         consistent_on (keys ++ l.*1) st' ∧
         args st' = args st ∧ inputs st' = inputs st.
Proof.
  intros Hr. revert keys st. induction l as [| [k pth] l IH]; intros keys st Hc Hnd Hd.
  - exists st. simpl. rewrite app_nil_r. by split_and!.
  - simpl in Hnd. apply NoDup_cons in Hnd as [Hk Hnd].
    destruct (startup_input_eval persisted keys st k pth Hc) as (st1 & Hev & Hc1 & Ha1 & Hi1);
      [apply Hd; simpl; apply list_elem_of_here | apply Hr |].
    destruct (IH (keys ++ [k]) st1 Hc1 Hnd) as (st' & Hrun & Hc' & Ha & Hi).
    { intros j Hj. rewrite elem_of_app, list_elem_of_singleton.
      intros [Hin | ->]; [|done].
      apply (Hd j); [|done]. simpl. by apply list_elem_of_further. }
    exists st'. split_and!.
    + simpl. by mstep Hev.
    + simpl. by rewrite <- app_assoc in Hc'.
    + congruence.
    + congruence.
Qed.

Lemma initial_consistent a : consistent_on [] (initial_state a).
Proof.
  split; simpl.
  - intros inp. rewrite lookup_empty. split; [by intros [? ?] | intros H].
    by apply not_elem_of_nil in H.
  - intros inp sd. by rewrite lookup_empty.
  - intros inp _. split; [apply lookup_empty | apply not_elem_of_empty].
Qed.

Lemma startup_spec a persisted :
  (∀ inp, settings_in_range (persisted inp)) →
  startup persisted (initial_state a) = Ret tt (started a persisted) ∧
  consistent (started a persisted) ∧
  args (started a persisted) = a ∧
  inputs (started a persisted) = enumerate 1 (arg_inputs a).
Proof.
  intros Hr. unfold started, startup.
  destruct (startup_loop persisted (enumerate 1 (arg_inputs a)) [] (initial_state a) Hr)
    as (st' & Hrun & Hc & Ha & Hi).
  - apply initial_consistent.
  - apply enumerate_NoDup.
  - intros k _. apply not_elem_of_nil.
  - erewrite bind_Ret by reflexivity. simpl. rewrite Hrun. simpl.
    split_and!; try done.
    split; rewrite Hi; simpl; [apply enumerate_NoDup | done].
Qed.

(** ** Runs *)

Lemma step_consistent st o :
  consistent st → valid_op o →
  consistent (step st o) ∧ inputs (step st o) = inputs st ∧ args (step st o) = args st.
Proof.
  intros Hc Hv. unfold step. destruct o as [inp w | inp level |]; simpl.
  - by apply setting_changed_consistent.
  - destruct Hc as [Hnd Hc].
    destruct (poll_event_consistent _ st (inp, level) Hc)
      as (st' & -> & Hc' & _ & _ & Ha & Hi & _).
    simpl. split_and!; try done. split; by rewrite Hi.
  - destruct (save_counters_spec st Hc) as (st' & -> & Hc' & Ha & Hi & _).
    by simpl.
Qed.

Lemma run_consistent st ops :
  consistent st → Forall valid_op ops →
  consistent (run st ops) ∧ inputs (run st ops) = inputs st ∧ args (run st ops) = args st.
Proof.
  intros Hc Hv. revert st Hc. induction Hv as [| o ops Ho _ IH]; intros st Hc.
  - done.
  - simpl. destruct (step_consistent st o Hc Ho) as (Hc1 & Hi1 & Ha1).
    destruct (IH _ Hc1) as (Hc2 & Hi2 & Ha2).
    split_and!; [done | congruence | congruence].
Qed.

(** ** The checker is sound *)

Lemma in_rangeb_sound sd : in_rangeb sd = true → settings_in_range sd.
Proof.
  unfold in_rangeb, settings_in_range. rewrite !andb_true_iff.
  intros [[[[[H1 H2] H3] H4] H5] H6].
  apply bool_decide_eq_true in H1, H2, H5, H6.
  apply Qle_bool_iff in H3, H4. done.
Qed.

Lemma line_okb_sound st inp sd : line_okb st inp sd = true → line_ok st inp sd.
Proof.
  unfold line_okb. rewrite !andb_true_iff, !orb_true_iff.
  intros [[[[[H1 H2] H3] H4] H5] H6].
  apply in_rangeb_sound in H1. apply bool_decide_eq_true in H2, H3.
  split; try done.
  - intros Hf. destruct H4 as [H4 | H4].
    + by apply bool_decide_eq_true in H4.
    + destruct (published st inp "/Count") as [[c | |]|]; try done.
      apply bool_decide_eq_true in H4. eauto.
  - intros Hf. destruct H5 as [H5 | H5]; apply bool_decide_eq_true in H5; done.
  - intros Hf. destruct H6 as [H6 | H6].
    + by apply bool_decide_eq_true in H6.
    + apply andb_true_iff in H6 as [H6 H7]. apply bool_decide_eq_true in H6.
      split; [done|]. unfold is_VStr in H7.
      destruct (published st inp "/Type") as [[| | x]|]; try done.
      destruct (type_name (inputtype sd)) as [y|]; try done.
      apply bool_decide_eq_true in H7. by subst.
Qed.

Lemma consistentb_sound st : consistentb st = true → consistent st.
Proof.
  unfold consistentb. rewrite !andb_true_iff.
  intros [[[[H1 H2] H3] H4] H5].
  apply bool_decide_eq_true in H1, H2, H3, H4.
  rewrite forallb_forall in H5.
  split; [done|]. split.
  - intros inp. rewrite <- elem_of_dom, H2. apply elem_of_list_to_set.
  - intros inp sd Hsd. apply line_okb_sound.
    apply (H5 (inp, sd)). apply list_elem_of_In. by apply elem_of_map_to_list.
  - intros inp Hnone. apply not_elem_of_dom in Hnone. split.
    + apply not_elem_of_dom. intros Hin. apply Hnone. by apply H3.
    + intros Hin. apply Hnone. by apply H4.
Qed.

Example example_state_checked : consistentb example_state = true.
Proof. by vm_compute. Qed.

(** ** Counting *)

Lemma bump_iter_succ n c :
  Nat.iter (S n) bump c = (c + Z.of_nat (S n)) mod MAXCOUNT.
Proof.
  induction n as [|n IH].
  - reflexivity.
  - change (Nat.iter (S (S n)) bump c) with (bump (Nat.iter (S n) bump c)).
    rewrite IH. unfold bump. rewrite Zplus_mod_idemp_l. f_equal. lia.
Qed.

Lemma bump_iter n c :
  0 <= c < MAXCOUNT ∨ (0 < n)%nat →
  Nat.iter n bump c = (c + Z.of_nat n) mod MAXCOUNT.
Proof.
  destruct n as [|n]; [|intros _; apply bump_iter_succ].
  intros [H | H]; [|lia]. simpl. rewrite Z.add_0_r, Z.mod_small; done.
Qed.

Lemma rising_frame st st' inp ev :
  settings st' = settings st → rising st' inp ev = rising st inp ev.
Proof. intros H. unfold rising. by rewrite H. Qed.

Lemma rising_events_frame st st' inp (events : list (Z * Z)) :
  settings st' = settings st →
  filter (λ ev, rising st' inp ev = true) events =
  filter (λ ev, rising st inp ev = true) events.
Proof.
  intros H. apply list_filter_iff. intros ev. by rewrite (rising_frame st st').
Qed.

Lemma example_in_range inp : settings_in_range (example_persisted inp).
Proof.
  unfold example_persisted, settings_in_range. rewrite MAXTYPE_eq, MAXCOUNT_eq.
  case_decide; simpl; unfold Qle; simpl; lia.
Qed.

Lemma full_in_range inp : settings_in_range (full_persisted inp).
Proof.
  unfold full_persisted, settings_in_range. rewrite MAXTYPE_eq, MAXCOUNT_eq.
  case_decide; simpl; unfold Qle; simpl; lia.
Qed.

(** One event and the count of a line. *)
Lemma poll_event_count keys st inp c ev :
  consistent_on keys st →
  published st inp "/Count" = Some (VInt c) →
  ∃ st', poll_event ev st = Ret tt st' ∧ consistent_on keys st' ∧
         settings st' = settings st ∧
         published st' inp "/Count" =
           Some (VInt (if rising st inp ev then bump c else c)).
Proof.
  intros Hc Hcount. destruct ev as [j level].
  destruct (services st !! j) as [svc|] eqn:Hs.
  2:{ exists st. rewrite poll_event_absent by done. split_and!; try done.
      unfold rising. simpl. case_bool_decide as Hj; [|done]. subst j.
      by rewrite (published_None _ _ _ Hs) in Hcount. }
  destruct (line_ready _ _ _ _ Hc Hs) as (sd & cj & Hsd & Hok & Hf & Hcj & Hr & Ha & Hst).
  destruct (poll_event_consistent _ st (j, level) Hc)
    as (st' & Hev & Hc' & Hse & _ & _ & _ & Hfr).
  exists st'. split_and!; try done.
  rewrite (poll_event_spec _ _ _ _ _ _ _ Hc Hs Hsd Hcj) in Hev.
  injection Hev as <-. unfold rising. simpl.
  case_bool_decide as Hj; simpl.
  - subst j. rewrite Hsd. rewrite (published_Some _ _ _ _ Hs) in Hcount.
    assert (cj = c) as -> by congruence.
    unfold published. simpl. rewrite lookup_insert_eq. simpl.
    by rewrite (poll_objects_count _ _ _ _ Hcj).
  - unfold published in *. simpl. by rewrite lookup_insert_ne.
Qed.

Lemma poll_count keys st inp c (events : list (Z * Z)) :
  consistent_on keys st →
  published st inp "/Count" = Some (VInt c) →
  ∃ st', poll events st = Ret tt st' ∧ consistent_on keys st' ∧
         settings st' = settings st ∧
         published st' inp "/Count" =
           Some (VInt (Nat.iter (length (filter (λ ev, rising st inp ev = true) events))
                         bump c)).
Proof.
  revert st c. induction events as [|ev events IH]; intros st c Hc Hcount.
  - exists st. by split_and!.
  - destruct (poll_event_count _ _ _ _ ev Hc Hcount) as (st1 & Hev & Hc1 & Hse1 & Hcount1).
    destruct (IH _ _ Hc1 Hcount1) as (st' & Hrun & Hc' & Hse & Hcount').
    exists st'. split_and!; try done.
    + unfold poll in *. simpl. by mstep Hev.
    + congruence.
    + rewrite Hcount'. rewrite (rising_events_frame st st1) by done.
      rewrite filter_cons. destruct (rising st inp ev) eqn:Hr.
      * rewrite decide_True by done. simpl length. by rewrite Nat.iter_succ_r.
      * rewrite decide_False by done. done.
Qed.

(** The simulated source on the example configuration: three turns give
    line 1 three rising edges, from the persisted count 5 at rate 0.001. *)
Example three_simulated_cycles :
  ∃ st', poll (debug_cycle example_state ++ debug_cycle example_state ++
               debug_cycle example_state) example_state = Ret tt st' ∧
         published st' 1 "/Count" = Some (VInt 8) ∧
         published st' 1 "/Aggregate" = Some (VFloat (inject_Z 8 * (1 # 1000))) ∧
         published st' 2 "/State" = Some (VInt 0).
Proof. eexists. split_and!; by vm_compute. Qed.

(** ** What a settings write leaves behind *)

Lemma setting_changed_final st inp w sd :
  consistent st → settings st !! inp = Some sd → write_in_range w →
  let st' := final_state (setting_changed inp w st) in
  let sd' := apply_write w sd in
  settings st' = <[inp := sd']> (settings st) ∧
  (∀ j, j ≠ inp → services st' !! j = services st !! j) ∧
  match w with
  | write_function new =>
      if decide (new = 0) then services st' !! inp = None
      else ∃ pth t, services st' !! inp =
                      Some (fresh_service new (args st) pth inp sd' t)
  | write_inputtype new =>
      if decide (function sd = INPUT_FUNCTION_INPUT ∧ new ≠ inputtype sd)
      then ∃ svc t, services st !! inp = Some svc ∧ type_name new = Some t ∧
                    services st' !! inp =
                      Some (mkService (servicename svc)
                              (<["/Type" := VStr t]> (dbusobjects svc)))
      else services st' !! inp = services st !! inp
  | _ => services st' !! inp = services st !! inp
  end.
Proof.
  intros [Hnd Hc] Hsd Hw st' sd'. subst st'.
  pose proof (c_lines _ _ Hc _ _ Hsd) as Hok.
  pose proof (ok_range _ _ _ Hok) as Hr.
  assert (Hkey : inp ∈ (inputs st).*1) by (apply (c_settings _ _ Hc); eauto).
  destruct w as [new | new | new | new | new];
    try (rewrite (other_setting_changed _ _ _ _ Hsd) by done; simpl;
         split_and!; done).
  - simpl in Hw. destruct (decide (new = 0)) as [-> | Hnew].
    + destruct (decide (function sd = 0)) as [Hf | Hf].
      * rewrite (function_stays_disabled _ _ _ Hsd Hf). simpl.
        split_and!; try done.
        destruct (services st !! inp) eqn:E; [|done].
        exfalso. apply (ok_enabled _ _ _ Hok); eauto.
      * assert (Hsvc : is_Some (services st !! inp)) by by apply (ok_enabled _ _ _ Hok).
        destruct Hsvc as [svc Hsvc].
        assert (Hp : inp ∈ pulses st) by (apply (ok_registered _ _ _ Hok); eauto).
        rewrite (function_disabled _ _ _ _ Hsd Hf Hp Hsvc). simpl.
        split_and!; [done | by frame | apply lookup_delete_eq].
    + assert (Hn : new = INPUT_FUNCTION_COUNTER ∨ new = INPUT_FUNCTION_INPUT)
        by (unfold INPUT_FUNCTION_COUNTER, INPUT_FUNCTION_INPUT; lia).
      destruct (inputs_lookup _ _ Hkey) as [pth Hpth].
      destruct (type_name_in_range _ Hr) as [t Ht].
      rewrite (function_enabled _ _ _ _ pth t Hsd Hn); try done.
      2:{ apply (ok_registered _ _ _ Hok). }
      simpl. split_and!; [done | by frame |].
      exists pth, t. apply lookup_insert_eq.
  - simpl in Hw.
    destruct (decide (new = inputtype sd)) as [-> | Hnew].
    { rewrite (inputtype_unchanged _ _ _ Hsd). simpl.
      rewrite decide_False by tauto. by split_and!. }
    destruct (type_name_some new) as [t Ht]; [lia|].
    destruct (function_cases _ Hr) as [Hz | [Hcnt | Hin]].
    + assert (Hnone : services st !! inp = None).
      { destruct (services st !! inp) eqn:E; [|done].
        exfalso. apply (ok_enabled _ _ _ Hok); eauto. }
      rewrite (inputtype_changed_disabled _ _ _ _ t Hsd) by done. simpl.
      rewrite decide_False by (rewrite Hz; intros [? _]; done). by split_and!.
    + assert (Hsvc : is_Some (services st !! inp))
        by (apply (ok_enabled _ _ _ Hok); by rewrite Hcnt).
      destruct Hsvc as [svc Hsvc].
      assert (Hty : dbusobjects svc !! "/Type" = None).
      { rewrite <- (published_Some _ _ _ _ Hsvc).
        pose proof (ok_counter _ _ _ Hok Hcnt) as Hpaths.
        destruct (published st inp "/Type") eqn:E; [|done].
        exfalso. apply type_not_counter.
        apply (published_in_paths _ _ _ _ Hpaths). by rewrite E. }
      rewrite (inputtype_changed_no_type _ _ _ svc _ t Hsd) by done. simpl.
      rewrite decide_False by (rewrite Hcnt; intros [? _]; done). by split_and!.
    + assert (Hsvc : is_Some (services st !! inp))
        by (apply (ok_enabled _ _ _ Hok); by rewrite Hin).
      destruct Hsvc as [svc Hsvc].
      destruct (ok_input _ _ _ Hok Hin) as [_ Hty].
      destruct (type_name_in_range _ Hr) as [t0 Ht0].
      rewrite (published_Some _ _ _ _ Hsvc), Ht0 in Hty.
      rewrite (inputtype_changed _ _ _ svc _ t Hsd) by eauto. simpl.
      rewrite decide_True by done.
      split_and!; [done | by frame |].
      exists svc, t. split_and!; try done. apply lookup_insert_eq.
Qed.

(** ** [/Aggregate] *)

Lemma aggregate_ok_frame st st' inp :
  services st' !! inp = services st !! inp →
  (∀ sd', settings st' !! inp = Some sd' →
          ∃ sd, settings st !! inp = Some sd ∧
                function sd = function sd' ∧ rate sd = rate sd') →
  aggregate_ok st inp → aggregate_ok st' inp.
Proof.
  intros Hs Hse Hagg sd' Hsd' Hf.
  destruct (Hse _ Hsd') as (sd & Hsd & Hfun & Hrate).
  destruct (Hagg sd Hsd) as (c & Hc & Ha); [congruence|].
  exists c. unfold published in *. rewrite Hs, <- Hrate. done.
Qed.

Lemma aggregate_ok_registered st inp sd a pth t :
  settings st !! inp = Some sd →
  services st !! inp = Some (fresh_service (function sd) a pth inp sd t) →
  aggregate_ok st inp.
Proof.
  intros Hsd Hs sd' Hsd' Hf. assert (sd' = sd) as -> by congruence.
  exists (count sd). rewrite !(published_Some _ _ _ _ Hs).
  unfold fresh_service. rewrite decide_True by done.
  by rewrite counter_service_count, counter_service_aggregate.
Qed.

Lemma aggregate_ok_not_counter st inp :
  (∀ sd, settings st !! inp = Some sd → function sd ≠ INPUT_FUNCTION_COUNTER) →
  aggregate_ok st inp.
Proof. intros H sd Hsd Hf. by destruct (H sd Hsd). Qed.

Lemma poll_event_aggregate st ev inp :
  consistent st →
  aggregate_ok st inp ∨ rising st inp ev = true →
  aggregate_ok (final_state (poll_event ev st)) inp.
Proof.
  intros [Hnd Hc] Hagg. destruct ev as [j level].
  destruct (services st !! j) as [svc|] eqn:Hs.
  2:{ rewrite poll_event_absent by done. simpl.
      destruct Hagg as [Hagg | Hrise]; [done|].
      unfold rising in Hrise. simpl in Hrise.
      case_bool_decide as Hj; [subst j | done].
      apply aggregate_ok_not_counter. intros sd Hsd Hf.
      assert (is_Some (services st !! inp)) as [? ?]; [|congruence].
      apply (ok_enabled _ _ _ (c_lines _ _ Hc _ _ Hsd)). by rewrite Hf. }
  destruct (line_ready _ _ _ _ Hc Hs) as (sd & c & Hsd & Hok & Hf & Hcount & Hr & Ha & Hst).
  rewrite (poll_event_spec _ _ _ _ _ _ _ Hc Hs Hsd Hcount). simpl.
  destruct (decide (j = inp)) as [-> | Hne].
  2:{ destruct Hagg as [Hagg | Hrise].
      - apply (aggregate_ok_frame st); simpl; [by rewrite lookup_insert_ne | eauto | done].
      - unfold rising in Hrise. simpl in Hrise.
        by rewrite bool_decide_eq_false_2 in Hrise. }
  intros sd' Hsd' Hcnt. simpl in Hsd'. assert (sd' = sd) as -> by congruence.
  unfold published. simpl. rewrite lookup_insert_eq. simpl.
  rewrite (poll_objects_count _ _ _ _ Hcount).
  destruct (py_bool (effective_level sd level)) eqn:Hl.
  - eexists. split; [done|]. by apply poll_objects_aggregate.
  - destruct Hagg as [Hagg | Hrise].
    + destruct (Hagg sd Hsd Hcnt) as (c' & Hc' & Ha').
      rewrite (published_Some _ _ _ _ Hs) in Hc'.
      rewrite (published_Some _ _ _ _ Hs) in Ha'.
      assert (c' = c) as -> by congruence.
      exists c. split; [done|]. by rewrite poll_objects_falling.
    + unfold rising in Hrise. simpl in Hrise.
      rewrite bool_decide_eq_true_2, Hsd, Hl in Hrise by done. done.
Qed.

Lemma saved_rate st inp sd : rate (saved st inp sd) = rate sd.
Proof.
  unfold saved. case_decide; [|done].
  by destruct (published st inp "/Count") as [[]|].
Qed.

(** Every operation other than a write of the line's rate keeps
    [/Aggregate] in step with [/Count], and registration and rising events
    put it in step. *)
Lemma step_aggregate st o inp :
  consistent st → valid_op o → ¬ writes_rate o inp →
  aggregate_ok st inp ∨ establishes st o inp →
  aggregate_ok (step st o) inp.
Proof.
  intros Hc Hv Hrate Hagg. unfold step.
  destruct o as [j w | j level |]; simpl.
  - destruct (settings st !! j) as [sd|] eqn:Hsd.
    2:{ rewrite setting_changed_unknown by done. simpl.
        destruct Hagg as [Hagg | Hest]; [done|].
        apply aggregate_ok_not_counter. intros sd' Hsd'.
        destruct w; simpl in Hest; try done. congruence. }
    destruct (setting_changed_final st j w sd Hc Hsd Hv) as (Hse & Hfr & Hline).
    destruct (decide (j = inp)) as [-> | Hne].
    2:{ destruct Hagg as [Hagg | Hest].
        - apply (aggregate_ok_frame st); [by apply Hfr | | done].
          intros sd'. rewrite Hse, lookup_insert_ne by done. eauto.
        - destruct w; simpl in Hest; done. }
    destruct w as [new | new | new | new | new]; simpl in Hrate; [ | | done | |].
    + case_decide as Hnew.
      * apply aggregate_ok_not_counter. intros sd'.
        rewrite Hse, lookup_insert_eq. intros [= <-]. by rewrite Hnew.
      * destruct Hline as (pth & t & Hline).
        apply (aggregate_ok_registered _ inp (apply_write (write_function new) sd)
                 (args st) pth t); [|exact Hline].
        rewrite Hse. apply lookup_insert_eq.
    + destruct Hagg as [Hagg | Hest]; [|done].
      case_decide as Hcase.
      * apply aggregate_ok_not_counter. intros sd'.
        rewrite Hse, lookup_insert_eq. intros [= <-]. simpl.
        destruct Hcase as [-> _]. done.
      * apply (aggregate_ok_frame st); [done | | done].
        intros sd'. rewrite Hse, lookup_insert_eq. intros [= <-]. eauto.
    + destruct Hagg as [Hagg | Hest]; [|done].
      apply (aggregate_ok_frame st); [done | | done].
      intros sd'. rewrite Hse, lookup_insert_eq. intros [= <-]. eauto.
    + destruct Hagg as [Hagg | Hest]; [|done].
      apply (aggregate_ok_frame st); [done | | done].
      intros sd'. rewrite Hse, lookup_insert_eq. intros [= <-]. eauto.
  - by apply poll_event_aggregate.
  - destruct Hagg as [Hagg | Hest]; [|done].
    destruct (save_counters_spec st Hc) as (st' & -> & _ & _ & _ & Hs & _ & Hset).
    simpl. apply (aggregate_ok_frame st); [by rewrite Hs | | done].
    intros sd'. rewrite Hset.
    destruct (settings st !! inp) as [sd|]; [|done]. simpl. intros [= <-].
    exists sd. by rewrite saved_function, saved_rate.
Qed.

(** ** Further properties of the operations *)

Lemma effective_level_bit sd level :
  0 <= invert sd <= 1 → level = 0 ∨ level = 1 →
  effective_level sd level = Z.lxor level (invert sd) ∧
  (Z.lxor level (invert sd) = 0 ∨ Z.lxor level (invert sd) = 1).
Proof.
  intros Hi Hl. unfold effective_level, py_xor.
  assert (invert sd = 0 ∨ invert sd = 1) as [-> | ->] by lia;
    destruct Hl as [-> | ->]; simpl; auto.
Qed.

(** The event on a level-sensor line: what it publishes. *)
Lemma poll_event_input st inp sd level c :
  consistent st →
  settings st !! inp = Some sd →
  function sd = INPUT_FUNCTION_INPUT →
  published st inp "/Count" = Some (VInt c) →
  ∃ st', poll_event (inp, level) st = Ret tt st' ∧
         published st' inp "/State" =
           Some (VInt (Z.b2z (py_bool (effective_level sd level)))) ∧
         published st' inp "/Count" =
           Some (VInt (if py_bool (effective_level sd level) then bump c else c)).
Proof.
  intros [Hnd Hc] Hsd Hf Hcount.
  destruct (services st !! inp) as [svc|] eqn:Hs;
    [|by rewrite (published_None _ _ _ Hs) in Hcount].
  rewrite (published_Some _ _ _ _ Hs) in Hcount.
  eexists. split; [by eapply poll_event_spec|].
  unfold published. simpl. rewrite lookup_insert_eq. simpl.
  by rewrite poll_objects_state, (poll_objects_count _ _ _ _ Hcount).
Qed.

Lemma type_name_catalog t :
  0 <= t → type_name t = catalog_entry t ∧ is_Some (catalog_entry t).
Proof.
  intros Ht. unfold type_name, catalog_entry. rewrite MAXTYPE_eq.
  destruct (decide (6 <= t)) as [Hge | Hlt].
  - rewrite Z.min_r by lia. split; [reflexivity | by eexists].
  - rewrite Z.min_l by lia. unfold py_index.
    rewrite decide_True by (simpl; lia). split; [done|].
    apply lookup_lt_is_Some. simpl. lia.
Qed.


Lemma consistent_registered st inp :
  consistent st →
  inp ∈ pulses st ↔
    ∃ sd, settings st !! inp = Some sd ∧ function sd ≠ 0 ∧
          is_Some (services st !! inp).
Proof.
  intros [Hnd Hc]. split.
  - intros Hp. destruct (settings st !! inp) as [sd|] eqn:Hsd.
    2:{ by destruct (c_orphans _ _ Hc _ Hsd). }
    pose proof (c_lines _ _ Hc _ _ Hsd) as Hok.
    assert (Hs : is_Some (services st !! inp)) by by apply (ok_registered _ _ _ Hok).
    exists sd. split_and!; try done. by apply (ok_enabled _ _ _ Hok).
  - intros (sd & Hsd & _ & Hs).
    by apply (ok_registered _ _ _ (c_lines _ _ Hc _ _ Hsd)).
Qed.


Lemma startup_input_aggregate persisted keys st inp pth :
  consistent_on keys st →
  inp ∉ keys →
  settings_in_range (persisted inp) →
  (∀ j, aggregate_ok st j) →
  ∀ j, aggregate_ok (final_state (startup_input persisted (inp, pth) st)) j.
Proof.
  intros Hc Hk Hr Hagg j. set (sd := persisted inp).
  unfold startup_input. simpl.
  erewrite bind_Ret by reflexivity.
  mstep_by get_settings_Some ltac:(simpl; apply lookup_insert_eq).
  fold sd.
  destruct (decide (function sd > 0)) as [Hf | Hf].
  - assert (Hn : function sd = INPUT_FUNCTION_COUNTER ∨ function sd = INPUT_FUNCTION_INPUT).
    { destruct Hr as [? _]. fold sd in H.
      unfold INPUT_FUNCTION_COUNTER, INPUT_FUNCTION_INPUT. lia. }
    destruct (type_name_in_range _ Hr) as [t Ht]. fold sd in Ht.
    rewrite (register_gpio_eval _ pth inp (function sd) sd t);
      [ | done | simpl; apply lookup_insert_eq | done ].
    simpl. destruct (decide (j = inp)) as [-> | Hne].
    + apply (aggregate_ok_registered _ inp sd (args st) pth t); simpl;
        apply lookup_insert_eq.
    + apply (aggregate_ok_frame st); simpl; [by rewrite lookup_insert_ne | | done].
      intros sd'. rewrite lookup_insert_ne by done. eauto.
  - simpl. destruct (decide (j = inp)) as [-> | Hne].
    + apply aggregate_ok_not_counter. intros sd'. simpl.
      rewrite lookup_insert_eq. intros [= <-]. fold sd.
      unfold INPUT_FUNCTION_COUNTER. lia.
    + apply (aggregate_ok_frame st); simpl; [done | | done].
      intros sd'. rewrite lookup_insert_ne by done. eauto.
Qed.

Lemma startup_loop_aggregate persisted l keys st :
  (∀ inp, settings_in_range (persisted inp)) →
  consistent_on keys st →
  NoDup l.*1 → (∀ k, k ∈ l.*1 → k ∉ keys) →
  (∀ j, aggregate_ok st j) →
  ∀ j, aggregate_ok (final_state (for_each l (startup_input persisted) st)) j.
Proof.
  intros Hr. revert keys st.
  induction l as [| [k pth] l IH]; intros keys st Hc Hnd Hd Hagg; [done|].
  simpl in Hnd. apply NoDup_cons in Hnd as [Hk Hnd].
  assert (Hkk : k ∉ keys) by (apply Hd; simpl; apply list_elem_of_here).
  pose proof (startup_input_aggregate persisted keys st k pth Hc Hkk (Hr k) Hagg) as Hagg1.
  destruct (startup_input_eval persisted keys st k pth Hc Hkk (Hr k))
    as (st1 & Hev & Hc1 & _).
  rewrite Hev in Hagg1. simpl in Hagg1.
  simpl. mstep Hev. apply (IH (keys ++ [k])); try done.
  intros j Hj. rewrite elem_of_app, list_elem_of_singleton.
  intros [Hin | ->]; [|done].
  apply (Hd j); [|done]. simpl. by apply list_elem_of_further.
Qed.

Lemma started_aggregate a persisted inp :
  (∀ j, settings_in_range (persisted j)) →
  aggregate_ok (started a persisted) inp.
Proof.
  intros Hr. unfold started, startup.
  erewrite bind_Ret by reflexivity.
  apply (startup_loop_aggregate persisted _ [] (initial_state a)).
  - done.
  - apply initial_consistent.
  - apply enumerate_NoDup.
  - intros k _. apply not_elem_of_nil.
  - intros j sd. simpl. by rewrite lookup_empty.
Qed.

(** * The claims *)

(** C1, as stated, fails: seeded with the largest count the settings store
    accepts, line 1 publishes [MAXCOUNT] after an event that is falsy after
    inversion (no rising detection at all), where the formula
    [(initial_count + 0) mod MAXCOUNT] gives 0. *)
Lemma count_formula_fails_at_bound :
  consistent full_state ∧
  published full_state 1 "/Count" = Some (VInt MAXCOUNT) ∧
  rising_count full_state 1 [(1, 0)] = 0 ∧
  poll [(1, 0)] full_state = Ret tt full_state ∧
  published full_state 1 "/Count" ≠
    Some (VInt ((MAXCOUNT + rising_count full_state 1 [(1, 0)]) mod MAXCOUNT)).
Proof.
  split; [apply consistentb_sound; by vm_compute|].
  split; [by vm_compute|].
  split; [by vm_compute|].
  split; [by vm_compute|].
  by vm_compute.
Qed.

(** C1 (amended): in a consistent state, let line [inp] publish the count
    [c] and let [n] be the number of events for [inp] in the list whose
    level is truthy after inversion.  If [c] is below [MAXCOUNT] or [n] is
    at least 1, then [poll] consumes the whole list without raising and the
    line publishes [(c + n) mod MAXCOUNT], however the events of this and
    other lines are interleaved; and a single event that is falsy after
    inversion leaves the published count of every line as it was. *)
Theorem count_after_rising_events st inp c (events : list (Z * Z)) :
  consistent st →
  published st inp "/Count" = Some (VInt c) →
  0 <= c < MAXCOUNT ∨ 0 < rising_count st inp events →
  (∃ st', poll events st = Ret tt st' ∧
          published st' inp "/Count" =
            Some (VInt ((c + rising_count st inp events) mod MAXCOUNT))) ∧
  (∀ ev, rising st ev.1 ev = false →
         ∃ st', poll_event ev st = Ret tt st' ∧
                ∀ j, published st' j "/Count" = published st j "/Count").
Proof.
  intros [Hnd Hc] Hcount Hn. split.
  - destruct (poll_count _ _ _ _ events Hc Hcount) as (st' & Hrun & _ & _ & Hcount').
    exists st'. split; [done|]. rewrite Hcount'. f_equal. f_equal.
    unfold rising_count in *. apply bump_iter. lia.
  - intros [j level] Hfall. simpl in Hfall.
    destruct (services st !! j) as [svc|] eqn:Hs.
    2:{ exists st. by rewrite poll_event_absent. }
    destruct (line_ready _ _ _ _ Hc Hs) as (sd & cj & Hsd & _ & _ & Hcj & _).
    eexists. split; [by eapply poll_event_spec|].
    intros k. unfold published. simpl.
    destruct (decide (k = j)) as [-> | Hne]; [|by rewrite lookup_insert_ne].
    rewrite lookup_insert_eq, Hs. simpl.
    unfold rising in Hfall. simpl in Hfall.
    rewrite bool_decide_eq_true_2, Hsd in Hfall by done. simpl in Hfall.
    by rewrite poll_objects_falling.
Qed.

Lemma count_after_rising_events_witness :
  consistent example_state ∧
  published example_state 1 "/Count" = Some (VInt 5) ∧
  ∃ st', poll [(1, 0); (1, 1); (2, 1); (1, 0); (1, 1); (2, 0); (1, 1)] example_state
           = Ret tt st' ∧
         published st' 1 "/Count" = Some (VInt 8).
Proof.
  split; [apply consistentb_sound; by vm_compute|].
  split; [by vm_compute|].
  destruct (count_after_rising_events example_state 1 5
              [(1, 0); (1, 1); (2, 1); (1, 0); (1, 1); (2, 0); (1, 1)])
    as [(st' & Hrun & Hcount) _].
  - apply consistentb_sound. by vm_compute.
  - by vm_compute.
  - left. by vm_compute.
  - exists st'. split; [done|]. rewrite Hcount. by vm_compute.
Defined.

(** C2, as stated, fails: when the published count is the wrap bound
    itself (the largest seed the settings store accepts), the next
    increment publishes 1, not 0. *)
Lemma increment_at_bound_gives_one :
  consistent full_state ∧
  published full_state 1 "/Count" = Some (VInt MAXCOUNT) ∧
  rising full_state 1 (1, 1) = true ∧
  ∃ st', poll_event (1, 1) full_state = Ret tt st' ∧
         published st' 1 "/Count" = Some (VInt 1).
Proof.
  split; [apply consistentb_sound; by vm_compute|].
  split; [by vm_compute|].
  split; [by vm_compute|].
  eexists. split; by vm_compute.
Qed.

(** C2 (amended): in a consistent state the published count [c] of a line
    lies between 0 and [MAXCOUNT]; an event that is truthy after inversion
    is consumed without raising and publishes a count below [MAXCOUNT]:
    [c + 1] when [c < MAXCOUNT - 1], and 0 when [c = MAXCOUNT - 1]. *)
Theorem count_wraps st inp sd level c :
  consistent st →
  settings st !! inp = Some sd →
  published st inp "/Count" = Some (VInt c) →
  py_bool (effective_level sd level) = true →
  0 <= c <= MAXCOUNT ∧
  ∃ st' c', poll_event (inp, level) st = Ret tt st' ∧
            published st' inp "/Count" = Some (VInt c') ∧
            0 <= c' < MAXCOUNT ∧
            (c < MAXCOUNT - 1 → c' = c + 1) ∧
            (c = MAXCOUNT - 1 → c' = 0).
Proof.
  intros [Hnd Hc] Hsd Hcount Hl.
  destruct (services st !! inp) as [svc|] eqn:Hs;
    [|by rewrite (published_None _ _ _ Hs) in Hcount].
  destruct (line_ready _ _ _ _ Hc Hs) as (sd' & c0 & Hsd' & _ & _ & Hc0 & Hr & _).
  rewrite (published_Some _ _ _ _ Hs) in Hcount.
  assert (sd' = sd) as -> by congruence.
  assert (c0 = c) as -> by congruence.
  split; [done|].
  exists (set_services
            (<[inp := mkService (servicename svc)
                        (poll_objects sd level c (dbusobjects svc))]>) st),
         ((c + 1) mod MAXCOUNT).
  split; [by eapply poll_event_spec|].
  split.
  { unfold published. simpl. rewrite lookup_insert_eq. simpl.
    by rewrite (poll_objects_count _ _ _ _ Hcount), Hl. }
  pose proof (Z.mod_pos_bound (c + 1) MAXCOUNT) as Hb.
  rewrite MAXCOUNT_eq in *. split_and!; [lia | lia | |].
  - intros Hlt. apply Z.mod_small. lia.
  - intros ->. reflexivity.
Qed.

Lemma count_wraps_witness :
  consistent example_state ∧
  settings example_state !! 1 = Some (example_persisted 1) ∧
  published example_state 1 "/Count" = Some (VInt 5) ∧
  py_bool (effective_level (example_persisted 1) 1) = true ∧
  ∃ st', poll_event (1, 1) example_state = Ret tt st' ∧
         published st' 1 "/Count" = Some (VInt 6).
Proof.
  split; [apply consistentb_sound; by vm_compute|].
  split; [by vm_compute|].
  split; [by vm_compute|].
  split; [by vm_compute|].
  destruct (count_wraps example_state 1 (example_persisted 1) 1 5)
    as (_ & st' & c' & Hev & Hcount & _ & Hstep & _).
  - apply consistentb_sound. by vm_compute.
  - by vm_compute.
  - by vm_compute.
  - by vm_compute.
  - exists st'. split; [done|]. rewrite Hcount, Hstep; [done|]. by vm_compute.
Defined.

(** C3, as stated, fails in its last part: toggling [invert] changes which
    physical level increments the count.  The same event with physical
    level 1 on line 2 leaves the count at 0 while the line is inverted and
    raises it to 1 once [invert] has been set to 0. *)
Lemma toggling_changes_counted_edges :
  settings example_state !! 2 = Some (mkSettings 2 0 (1 # 1000) 0 1) ∧
  published example_state 2 "/Count" = Some (VInt 0) ∧
  published (step example_state (op_pulse 2 1)) 2 "/Count" = Some (VInt 0) ∧
  published (step (step example_state (op_setting 2 (write_invert 0))) (op_pulse 2 1))
    2 "/Count" = Some (VInt 1).
Proof. split_and!; by vm_compute. Qed.

(** C3 (amended): for an event with level 0 or 1 on a level-sensor line,
    the published [/State] is the level XOR the [invert] setting; after
    [invert] is toggled the same event publishes the opposite [/State].
    The count follows the level after inversion as well: the event
    increments [/Count] exactly when level XOR [invert] is 1, so toggling
    [invert] swaps the physical level that is counted. *)
Theorem state_is_level_xor_invert st inp sd level c :
  consistent st →
  settings st !! inp = Some sd →
  function sd = INPUT_FUNCTION_INPUT →
  level = 0 ∨ level = 1 →
  published st inp "/Count" = Some (VInt c) →
  let toggled := step st (op_setting inp (write_invert (1 - invert sd))) in
  let e := Z.lxor level (invert sd) in
  (∃ st1, poll_event (inp, level) st = Ret tt st1 ∧
          published st1 inp "/State" = Some (VInt e) ∧
          published st1 inp "/Count" =
            Some (VInt (if decide (e = 1) then bump c else c))) ∧
  (∃ st2, poll_event (inp, level) toggled = Ret tt st2 ∧
          published st2 inp "/State" = Some (VInt (1 - e)) ∧
          published st2 inp "/Count" =
            Some (VInt (if decide (e = 1) then c else bump c))).
Proof.
  intros Hc Hsd Hf Hl Hcount toggled e.
  pose proof (ok_range _ _ _ (c_lines _ _ (c_on _ Hc) _ _ Hsd)) as Hr.
  assert (Hi : 0 <= invert sd <= 1) by apply Hr.
  destruct (effective_level_bit sd level Hi Hl) as [He Hbit]. fold e in He, Hbit.
  split.
  - destruct (poll_event_input st inp sd level c) as (st1 & Hev & Hst & Hct); try done.
    exists st1. split; [done|]. rewrite Hst, Hct, He.
    destruct Hbit as [-> | ->]; by simpl.
  - set (sd2 := apply_write (write_invert (1 - invert sd)) sd).
    assert (Hw : write_in_range (write_invert (1 - invert sd))) by (simpl; lia).
    assert (Ht : toggled = set_settings (<[inp := sd2]>) st).
    { unfold toggled, step. simpl.
      by rewrite (other_setting_changed _ _ sd (write_invert (1 - invert sd))). }
    assert (Hc2 : consistent toggled).
    { apply (setting_changed_consistent st inp _ Hc Hw). }
    destruct (poll_event_input toggled inp sd2 level c) as (st2 & Hev & Hst & Hct);
      try done.
    { rewrite Ht. simpl. apply lookup_insert_eq. }
    { by rewrite Ht. }
    assert (Hi2 : 0 <= invert sd2 <= 1) by (simpl; lia).
    destruct (effective_level_bit sd2 level Hi2 Hl) as [He2 _].
    exists st2. split; [done|]. rewrite Hst, Hct, He2. simpl.
    unfold e in *.
    assert (invert sd = 0 ∨ invert sd = 1) as [-> | ->] by lia;
      destruct Hl as [-> | ->]; by simpl.
Qed.

Lemma state_is_level_xor_invert_witness :
  consistent example_state ∧
  settings example_state !! 2 = Some (example_persisted 2) ∧
  published example_state 2 "/Count" = Some (VInt 0) ∧
  (∃ st1, poll_event (2, 1) example_state = Ret tt st1 ∧
          published st1 2 "/State" = Some (VInt 0)) ∧
  (∃ st2, poll_event (2, 1) (step example_state (op_setting 2 (write_invert 0)))
            = Ret tt st2 ∧
          published st2 2 "/State" = Some (VInt 1)).
Proof.
  split; [apply consistentb_sound; by vm_compute|].
  split; [by vm_compute|].
  split; [by vm_compute|].
  destruct (state_is_level_xor_invert example_state 2 (example_persisted 2) 1 0)
    as [(st1 & Hev1 & Hst1 & _) (st2 & Hev2 & Hst2 & _)].
  - apply consistentb_sound. by vm_compute.
  - by vm_compute.
  - by vm_compute.
  - by right.
  - by vm_compute.
  - split; [exists st1 | exists st2]; (split; [done|]).
    + rewrite Hst1. by vm_compute.
    + rewrite Hst2. by vm_compute.
Defined.

(** C4: the published [/Type] is the catalog entry of the type index: the
    entry at that index for an index within the catalog, and the last entry
    for every index at or past the catalog size.  This holds both when
    [register_gpio] creates a level-sensor service and when the inputtype
    setting of a level-sensor line changes at run time, and neither
    raises. *)
Theorem type_index_clamped st inp sd pth new :
  consistent st →
  settings st !! inp = Some sd →
  0 <= new →
  (∀ t, MAXTYPE <= t → catalog_entry t = Some "CO2 alarm") ∧
  last INPUTTYPES = Some "CO2 alarm" ∧
  (∀ t, 0 <= t < MAXTYPE →
        catalog_entry t = INPUTTYPES !! Z.to_nat t ∧ is_Some (catalog_entry t)) ∧
  (∃ st', register_gpio pth inp INPUT_FUNCTION_INPUT st = Ret tt st' ∧
          published st' inp "/Type" = VStr <$> catalog_entry (inputtype sd)) ∧
  (function sd = INPUT_FUNCTION_INPUT →
   ∃ st', setting_changed inp (write_inputtype new) st = Ret tt st' ∧
          published st' inp "/Type" = VStr <$> catalog_entry new).
Proof.
  intros Hc Hsd Hnew.
  pose proof (c_lines _ _ (c_on _ Hc) _ _ Hsd) as Hok.
  pose proof (ok_range _ _ _ Hok) as Hr.
  assert (Hold : 0 <= inputtype sd) by apply Hr.
  destruct (type_name_catalog new Hnew) as [Hcat Hsome].
  destruct (type_name_catalog _ Hold) as [Hcat0 [t0 Ht0]].
  split; [intros t H; unfold catalog_entry; by rewrite decide_True|].
  split; [done|].
  split.
  { intros t H. split; [unfold catalog_entry; by rewrite decide_False by lia|].
    apply type_name_catalog. lia. }
  split.
  - eexists. split.
    + apply (register_gpio_input st pth inp sd t0); [done | by rewrite Hcat0].
    + erewrite published_Some by (simpl; apply lookup_insert_eq).
      by rewrite input_service_type, Ht0.
  - intros Hf. destruct (ok_input _ _ _ Hok Hf) as [Hpaths Hty].
    destruct (decide (new = inputtype sd)) as [-> | Hne].
    + eexists. split; [by apply inputtype_unchanged|].
      change (published st inp "/Type" = VStr <$> catalog_entry (inputtype sd)).
      by rewrite Hty, Hcat0.
    + destruct Hsome as [t Ht].
      assert (Hsvc : is_Some (services st !! inp)).
      { apply (ok_enabled _ _ _ Hok). by rewrite Hf. }
      destruct Hsvc as [svc Hsvc].
      eexists. split.
      * apply (inputtype_changed st inp sd svc new t); try done.
        -- by rewrite Hcat.
        -- rewrite <- (published_Some _ _ _ _ Hsvc), Hty, Hcat0, Ht0. by eexists.
      * unfold published. simpl. rewrite lookup_insert_eq. simpl.
        by rewrite lookup_insert_eq, Ht.
Qed.

Lemma type_index_clamped_witness :
  consistent example_state ∧
  settings example_state !! 2 = Some (example_persisted 2) ∧
  ∃ st', setting_changed 2 (write_inputtype 6) example_state = Ret tt st' ∧
         published st' 2 "/Type" = Some (VStr "CO2 alarm").
Proof.
  split; [apply consistentb_sound; by vm_compute|].
  split; [by vm_compute|].
  destruct (type_index_clamped example_state 2 (example_persisted 2) "/in/1" 6)
    as (_ & _ & _ & _ & Hchange).
  - apply consistentb_sound. by vm_compute.
  - by vm_compute.
  - lia.
  - destruct Hchange as (st' & Hev & Hty); [by vm_compute|].
    exists st'. split; [done|]. rewrite Hty. by vm_compute.
Defined.



(** C6: an event for a line with no entry in the services table is dropped:
    the loop body returns without raising and leaves the whole state, hence
    every published field and count of every line, unchanged. *)
Theorem event_for_absent_line_dropped st inp level :
  services st !! inp = None →
  poll_event (inp, level) st = Ret tt st.
Proof. apply poll_event_absent. Qed.

Lemma event_for_absent_line_dropped_witness :
  let st := step example_state (op_setting 1 (write_function 0)) in
  services st !! 1 = None ∧ poll_event (1, 1) st = Ret tt st.
Proof.
  split; [by vm_compute|].
  apply (event_for_absent_line_dropped
           (step example_state (op_setting 1 (write_function 0))) 1 1).
  by vm_compute.
Defined.



(** C8: in a consistent state a run of [save_counters] returns; it leaves
    the services table and the pulse counter as they were; for every line
    whose function setting is greater than zero the count setting becomes
    the published [/Count] and the other four settings keep their values;
    the settings of every other line are unchanged, and no line gains or
    loses settings. *)
Theorem save_counters_copies_enabled_counts st :
  consistent st →
  ∃ st', save_counters st = Ret tt st' ∧
         services st' = services st ∧ pulses st' = pulses st ∧
         ∀ inp,
           match settings st !! inp with
           | None => settings st' !! inp = None
           | Some sd =>
               if decide (function sd > 0) then
                 ∃ c, published st inp "/Count" = Some (VInt c) ∧
                      settings st' !! inp =
                        Some (mkSettings (function sd) (inputtype sd) (rate sd)
                                c (invert sd))
               else settings st' !! inp = Some sd
           end.
Proof.
  intros Hc.
  destruct (save_counters_spec st Hc) as (st' & Hrun & _ & _ & _ & Hs & Hp & Hset).
  exists st'. split_and!; try done.
  intros inp. rewrite Hset.
  destruct (settings st !! inp) as [sd|] eqn:Hsd; [|done]. simpl.
  unfold saved. case_decide as Hf; [|done].
  pose proof (c_lines _ _ (c_on _ Hc) _ _ Hsd) as Hok.
  destruct (ok_count _ _ _ Hok) as (c & Hcount & _); [lia|].
  exists c. by rewrite Hcount.
Qed.

Lemma save_counters_copies_enabled_counts_witness :
  let st := run example_state [op_pulse 1 1; op_pulse 1 1; op_pulse 2 0;
                               op_setting 2 (write_function 0)] in
  consistent st ∧
  ∃ st', save_counters st = Ret tt st' ∧
         settings st' !! 1 = Some (mkSettings 1 0 (1 # 1000) 7 0) ∧
         settings st' !! 2 = Some (mkSettings 0 0 (1 # 1000) 0 1).
Proof.
  assert (Hc : consistent (run example_state
                  [op_pulse 1 1; op_pulse 1 1; op_pulse 2 0;
                   op_setting 2 (write_function 0)])).
  { apply consistentb_sound. by vm_compute. }
  split; [exact Hc|].
  destruct (save_counters_copies_enabled_counts _ Hc) as (st' & Hrun & _ & _ & Hset).
  exists st'. split; [done|]. split.
  - pose proof (Hset 1) as H1.
    assert (Hsd : settings (run example_state
                     [op_pulse 1 1; op_pulse 1 1; op_pulse 2 0;
                      op_setting 2 (write_function 0)]) !! 1 =
                  Some (mkSettings 1 0 (1 # 1000) 5 0)) by by vm_compute.
    rewrite Hsd, decide_True in H1 by (simpl; lia).
    destruct H1 as (c & Hcount & ->).
    assert (Hpub : published (run example_state
                     [op_pulse 1 1; op_pulse 1 1; op_pulse 2 0;
                      op_setting 2 (write_function 0)]) 1 "/Count" =
                   Some (VInt 7)) by by vm_compute.
    rewrite Hpub in Hcount. by injection Hcount as <-.
  - pose proof (Hset 2) as H2.
    assert (Hsd : settings (run example_state
                     [op_pulse 1 1; op_pulse 1 1; op_pulse 2 0;
                      op_setting 2 (write_function 0)]) !! 2 =
                  Some (mkSettings 0 0 (1 # 1000) 0 1)) by by vm_compute.
    rewrite Hsd, decide_False in H2 by (simpl; lia). exact H2.
Defined.

(** C9, as stated, fails for changes of the rate setting: the handler has
    no branch for it, so after the rate of counter line 1 is written
    [/Aggregate] still holds the product with the previous rate. *)
Lemma rate_change_leaves_aggregate_stale :
  let st := step example_state (op_setting 1 (write_rate (1 # 2))) in
  aggregate_ok example_state 1 ∧
  settings st !! 1 = Some (mkSettings 1 0 (1 # 2) 5 0) ∧
  published st 1 "/Count" = Some (VInt 5) ∧
  published st 1 "/Aggregate" = Some (VFloat (inject_Z 5 * (1 # 1000))) ∧
  ¬ (inject_Z 5 * (1 # 1000) == inject_Z 5 * (1 # 2))%Q ∧
  ¬ aggregate_ok st 1.
Proof.
  split; [apply started_aggregate, example_in_range|].
  split; [by vm_compute|].
  split; [by vm_compute|].
  split; [by vm_compute|].
  split; [by vm_compute|].
  intros Hagg.
  destruct (Hagg (mkSettings 1 0 (1 # 2) 5 0)) as (c & Hc & Ha);
    [by vm_compute | done |].
  vm_compute in Hc. vm_compute in Ha. injection Hc as <-. discriminate Ha.
Qed.

(** C9 (amended): on a counter line [/Aggregate] equals [/Count] times the
    rate setting when start-up has registered the lines; the relation is
    preserved by every operation other than a write of the line's rate
    (events, saves, writes of other settings and of other lines), and it is
    established, whatever held before, by a function write for the line
    and by an event of the line that is truthy after inversion.  A write of
    the rate does not touch [/Aggregate]. *)
Theorem aggregate_is_count_times_rate a persisted st o inp :
  (∀ j, settings_in_range (persisted j)) →
  consistent st →
  valid_op o →
  ¬ writes_rate o inp →
  aggregate_ok st inp ∨ establishes st o inp →
  aggregate_ok (started a persisted) inp ∧
  aggregate_ok (step st o) inp ∧
  (∀ r, published (step st (op_setting inp (write_rate r))) inp "/Aggregate" =
        published st inp "/Aggregate").
Proof.
  intros Hr Hc Hv Hrate Hagg.
  split; [by apply started_aggregate|].
  split; [by apply step_aggregate|].
  intros r. unfold step. simpl.
  destruct (settings st !! inp) as [sd|] eqn:Hsd.
  - by rewrite (other_setting_changed _ _ sd (write_rate r)).
  - by rewrite setting_changed_unknown.
Qed.

Lemma aggregate_is_count_times_rate_witness :
  consistent example_state ∧
  valid_op (op_pulse 1 1) ∧
  establishes example_state (op_pulse 1 1) 1 ∧
  aggregate_ok (step example_state (op_pulse 1 1)) 1 ∧
  published (step example_state (op_pulse 1 1)) 1 "/Aggregate" =
    Some (VFloat (inject_Z 6 * (1 # 1000))).
Proof.
  split; [apply consistentb_sound; by vm_compute|].
  split; [done|].
  split; [by vm_compute|].
  destruct (aggregate_is_count_times_rate example_args example_persisted
              example_state (op_pulse 1 1) 1) as (_ & Hagg & _).
  - apply example_in_range.
  - apply consistentb_sound. by vm_compute.
  - done.
  - simpl. tauto.
  - right. by vm_compute.
  - split; [exact Hagg | by vm_compute].
Defined.

(** C10: in a consistent state, a line that is not a level sensor is
    either disabled, with no entry in the services table, or a counter,
    whose service has no [/Type]; when its inputtype setting changes to a
    different value within the store's bounds, the handler raises
    [KeyError] from the unguarded assignment, publishing nothing. *)
Theorem inputtype_change_raises_off_level_sensor st inp sd new :
  consistent st →
  settings st !! inp = Some sd →
  function sd ≠ INPUT_FUNCTION_INPUT →
  new ≠ inputtype sd →
  0 <= new →
  let st1 := set_settings (<[inp := apply_write (write_inputtype new) sd]>) st in
  (function sd = 0 → services st !! inp = None) ∧
  (function sd = INPUT_FUNCTION_COUNTER →
     is_Some (services st !! inp) ∧ published st inp "/Type" = None) ∧
  handle_setting_change inp (inputtype_change (inputtype sd) new) st1 =
    Raise KeyError st1 ∧
  setting_changed inp (write_inputtype new) st = Raise KeyError st1.
Proof.
  intros Hc Hsd Hf Hne Hnew st1.
  pose proof (c_lines _ _ (c_on _ Hc) _ _ Hsd) as Hok.
  pose proof (ok_range _ _ _ Hok) as Hr.
  destruct (type_name_some new Hnew) as [t Ht].
  assert (H0 : function sd = 0 → services st !! inp = None).
  { intros Hz. destruct (services st !! inp) eqn:E; [|done].
    exfalso. by apply (ok_enabled _ _ _ Hok); eauto. }
  assert (H1 : function sd = INPUT_FUNCTION_COUNTER →
               is_Some (services st !! inp) ∧ published st inp "/Type" = None).
  { intros Hcnt. split; [apply (ok_enabled _ _ _ Hok); by rewrite Hcnt|].
    pose proof (ok_counter _ _ _ Hok Hcnt) as Hpaths.
    destruct (published st inp "/Type") eqn:E; [|done].
    exfalso. apply type_not_counter.
    apply (published_in_paths _ _ _ _ Hpaths). by rewrite E. }
  assert (Hraise : setting_changed inp (write_inputtype new) st = Raise KeyError st1).
  { destruct (function_cases _ Hr) as [Hz | [Hcnt | Hin]]; [| |done].
    - by apply (inputtype_changed_disabled _ _ _ _ t); auto.
    - destruct (H1 Hcnt) as [[svc Hsvc] Hty].
      rewrite (published_Some _ _ _ _ Hsvc) in Hty.
      by apply (inputtype_changed_no_type _ _ _ svc _ t). }
  split_and!; try done.
  by rewrite <- Hraise, (setting_changed_eval _ _ _ _ Hsd).
Qed.

Lemma inputtype_change_raises_off_level_sensor_witness :
  consistent example_state ∧
  settings example_state !! 1 = Some (example_persisted 1) ∧
  function (example_persisted 1) ≠ INPUT_FUNCTION_INPUT ∧
  3 ≠ inputtype (example_persisted 1) ∧
  setting_changed 1 (write_inputtype 3) example_state =
    Raise KeyError
      (set_settings (<[1 := apply_write (write_inputtype 3) (example_persisted 1)]>)
         example_state).
Proof.
  split; [apply consistentb_sound; by vm_compute|].
  split; [by vm_compute|].
  split; [by vm_compute|].
  split; [by vm_compute|].
  destruct (inputtype_change_raises_off_level_sensor example_state 1
              (example_persisted 1) 3) as (_ & _ & _ & Hraise).
  - apply consistentb_sound. by vm_compute.
  - by vm_compute.
  - by vm_compute.
  - by vm_compute.
  - lia.
  - exact Hraise.
Defined.

(** * Further properties *)

(** ** [EpollPulseCounter] *)

Lemma epoll_ok_fd_open pc gpio fd :
  epoll_ok pc → gpiomap pc !! gpio = Some fd → fd ∈ ob pc ∧ fdmap pc !! fd = Some gpio.
Proof.
  intros [Hbij Hob] Hg. apply Hbij in Hg. split; [|done].
  rewrite Hob. apply elem_of_dom. eauto.
Qed.

(** X1: the set of registered lines of the epoll counter behaves as the set
    [pulses] of the model of [main] does.  When the keys of [gpiomap] are
    the set [pulses], registering a line on a newly opened descriptor
    succeeds in both and keeps them equal; unregistering raises [KeyError]
    in both, changing nothing, when the line is not registered, and
    otherwise succeeds in both and keeps them equal; and [registered]
    answers alike. *)
Theorem epoll_counter_refines_pulses st pc path fd gpio :
  epoll_ok pc →
  pulses st = dom (gpiomap pc) →
  fd ∉ dom (fdmap pc) →
  (∃ pc' st', epoll_register (Some fd) gpio pc = Done tt pc' ∧
              pulses_register path gpio st = Ret tt st' ∧
              pulses st' = dom (gpiomap pc')) ∧
  (gpio ∉ pulses st →
     epoll_unregister gpio pc = Failed (Builtin KeyError) pc ∧
     pulses_unregister gpio st = Raise KeyError st) ∧
  (gpio ∈ pulses st →
     ∃ pc' st', epoll_unregister gpio pc = Done tt pc' ∧
                pulses_unregister gpio st = Ret tt st' ∧
                pulses st' = dom (gpiomap pc')) ∧
  pulses_registered gpio st = Ret (epoll_registered gpio pc) st.
Proof.
  intros Hok Hp Hfd. split_and!.
  - eexists _, _. unfold epoll_register.
    rewrite decide_False by (destruct Hok as [_ ->]; done).
    split; [done|]. split; [done|].
    simpl. by rewrite dom_insert_L, Hp.
  - intros Hg. rewrite Hp in Hg. apply not_elem_of_dom in Hg.
    split.
    + unfold epoll_unregister. by rewrite Hg.
    + unfold pulses_unregister. mstep get_eval.
      rewrite decide_False; [done|]. rewrite Hp. by apply not_elem_of_dom.
  - intros Hg. pose proof Hg as Hg'. rewrite Hp in Hg'.
    apply elem_of_dom in Hg' as [fd' Hfd'].
    destruct (epoll_ok_fd_open _ _ _ Hok Hfd') as [Hin Hmap].
    eexists _, _. unfold epoll_unregister.
    rewrite Hfd', decide_True, Hmap by done.
    split; [done|]. split; [by apply pulses_unregister_eval|].
    simpl. by rewrite dom_delete_L, Hp.
  - unfold pulses_registered. mstep get_eval. unfold mret, M_ret.
    f_equal. unfold epoll_registered. rewrite Hp.
    apply bool_decide_ext. apply elem_of_dom.
Qed.

Lemma epoll_counter_refines_pulses_witness :
  let pc := mkEpoll {[7 := 1]} {[1 := 7]} {[7]} in
  let st := mkState example_args [] ∅ ∅ {[1]} in
  epoll_ok pc ∧ pulses st = dom (gpiomap pc) ∧ (8 ∉ dom (fdmap pc)) ∧
  ∃ pc', epoll_register (Some 8) 2 pc = Done tt pc' ∧
         epoll_registered 2 pc' = true ∧ epoll_registered 1 pc' = true.
Proof.
  assert (Hok : epoll_ok (mkEpoll {[7 := 1]} {[1 := 7]} {[7]})).
  { split; simpl.
    - intros fd gpio. rewrite !lookup_singleton_Some. tauto.
    - by rewrite dom_singleton_L. }
  assert (Hp : pulses (mkState example_args [] ∅ ∅ {[1]}) =
               dom (gpiomap (mkEpoll {[7 := 1]} {[1 := 7]} {[7]}))).
  { simpl. by rewrite dom_singleton_L. }
  assert (Hfd : 8 ∉ dom (fdmap (mkEpoll {[7 := 1]} {[1 := 7]} {[7]}))).
  { simpl. rewrite dom_singleton_L, elem_of_singleton. lia. }
  split; [exact Hok|]. split; [exact Hp|]. split; [exact Hfd|].
  destruct (epoll_counter_refines_pulses _ _ "/in/1" 8 2 Hok Hp Hfd)
    as ((pc' & st' & Hreg & _ & _) & _).
  exists pc'. split; [done|].
  injection Hreg as <-. split; by vm_compute.
Defined.

(** X2: the bookkeeping of the epoll counter stays coherent.  If [fdmap]
    and [gpiomap] are inverse to each other and the epoll object holds
    exactly the descriptors of [fdmap], this is still so after registering
    a line that is not registered on a newly opened descriptor, and after
    unregistering any line, which succeeds exactly when the line is
    registered. *)
Theorem epoll_bookkeeping_coherent pc fd gpio g :
  epoll_ok pc →
  fd ∉ dom (fdmap pc) →
  gpiomap pc !! gpio = None →
  (∃ pc', epoll_register (Some fd) gpio pc = Done tt pc' ∧ epoll_ok pc') ∧
  (is_Some (gpiomap pc !! g) →
     ∃ pc', epoll_unregister g pc = Done tt pc' ∧ epoll_ok pc') ∧
  (gpiomap pc !! g = None → epoll_unregister g pc = Failed (Builtin KeyError) pc).
Proof.
  intros Hok Hfd Hg. pose proof Hok as [Hbij Hob]. split_and!.
  - eexists. unfold epoll_register.
    rewrite decide_False by (rewrite Hob; done).
    split; [done|]. split; simpl.
    + intros fd' gpio'. rewrite !lookup_insert_Some. rewrite Hbij.
      apply not_elem_of_dom in Hfd. split.
      * intros [[-> ->] | [Hne Hm]]; [by left|]. right. split; [|done].
        intros ->. congruence.
      * intros [[-> ->] | [Hne Hm]]; [by left|]. right. split; [|done].
        intros ->. apply Hbij in Hm. congruence.
    + by rewrite dom_insert_L, Hob.
  - intros [fd' Hfd'].
    destruct (epoll_ok_fd_open _ _ _ Hok Hfd') as [Hin Hmap].
    eexists. unfold epoll_unregister.
    rewrite Hfd', decide_True, Hmap by done.
    split; [done|]. split; simpl.
    + intros fd'' gpio''. rewrite !lookup_delete_Some. rewrite Hbij. split.
      * intros [Hne Hm]. split; [|done]. intros ->. congruence.
      * intros [Hne Hm]. split; [|done]. intros ->. apply Hbij in Hm. congruence.
    + by rewrite dom_delete_L, Hob.
  - intros Hnone. unfold epoll_unregister. by rewrite Hnone.
Qed.

Lemma epoll_bookkeeping_coherent_witness :
  epoll_ok epoll_init ∧
  ∃ pc', epoll_register (Some 5) 1 epoll_init = Done tt pc' ∧ epoll_ok pc'.
Proof.
  assert (Hok : epoll_ok epoll_init).
  { split; simpl; [|by rewrite dom_empty_L].
    intros fd gpio. by rewrite !lookup_empty. }
  split; [exact Hok|].
  destruct (epoll_bookkeeping_coherent epoll_init 5 1 1 Hok) as (Hreg & _).
  - simpl. rewrite dom_empty_L. apply not_elem_of_empty.
  - apply lookup_empty.
  - exact Hreg.
Defined.

(** X3: unregistering a line right after registering it gives back the
    counter as it was, when the line was not registered and the descriptor
    is newly opened. *)
Theorem epoll_register_unregister pc fd gpio :
  epoll_ok pc →
  fd ∉ dom (fdmap pc) →
  gpiomap pc !! gpio = None →
  ∃ pc', epoll_register (Some fd) gpio pc = Done tt pc' ∧
         epoll_unregister gpio pc' = Done tt pc.
Proof.
  intros [Hbij Hob] Hfd Hg. eexists. unfold epoll_register.
  rewrite decide_False by (rewrite Hob; done).
  split; [done|]. unfold epoll_unregister. simpl.
  rewrite lookup_insert_eq.
  rewrite decide_True by (rewrite elem_of_union, elem_of_singleton; by left).
  rewrite lookup_insert_eq. f_equal.
  destruct pc as [fm gm o]. simpl in *. f_equal.
  - apply not_elem_of_dom in Hfd. by rewrite delete_insert_eq, delete_id.
  - by rewrite delete_insert_eq, delete_id.
  - apply set_eq. intros x.
    rewrite elem_of_difference, elem_of_union, elem_of_singleton.
    split; [tauto|]. intros Hx. split; [by right|]. intros ->.
    apply Hfd. by rewrite <- Hob.
Qed.

Lemma epoll_register_unregister_witness :
  ∃ pc', epoll_register (Some 5) 1 epoll_init = Done tt pc' ∧
         epoll_unregister 1 pc' = Done tt epoll_init.
Proof.
  apply (epoll_register_unregister epoll_init 5 1).
  - split; simpl; [|by rewrite dom_empty_L].
    intros fd gpio. by rewrite !lookup_empty.
  - simpl. rewrite dom_empty_L. apply not_elem_of_empty.
  - apply lookup_empty.
Defined.

(** X4: the events of one [poll] of the epoll object.  When the counter is
    coherent, every ready descriptor is one the epoll object holds, and
    every byte read is a decimal digit, the loop raises nothing and yields
    one event per ready descriptor, in order: the line registered on the
    descriptor, with the digit as its level. *)
Theorem epoll_events_for_registered_lines pc (ready : list (Z * option Ascii.ascii)) :
  epoll_ok pc →
  Forall (λ r, r.1 ∈ ob pc ∧ is_Some (int_of_read r.2)) ready →
  ∃ evs, epoll_events pc ready = inr evs ∧
         length evs = length ready ∧
         ∀ i r, ready !! i = Some r →
           ∃ gpio level, evs !! i = Some (gpio, level) ∧
                         gpiomap pc !! gpio = Some r.1 ∧
                         epoll_registered gpio pc = true ∧
                         int_of_read r.2 = Some level.
Proof.
  intros [Hbij Hob] Hready. induction Hready as [| r ready [Hin [level Hlevel]] _ IH].
  - exists []. by split_and!.
  - destruct IH as (evs & Hevs & Hlen & Hall).
    rewrite Hob in Hin. apply elem_of_dom in Hin as [gpio Hgpio].
    exists ((gpio, level) :: evs). simpl. unfold epoll_event.
    rewrite Hgpio, Hlevel, Hevs. split_and!; [done | by rewrite Hlen |].
    intros [|i] r' Hr'; simpl in *.
    + injection Hr' as <-. exists gpio, level. split_and!; try done.
      * by apply Hbij.
      * unfold epoll_registered. apply bool_decide_eq_true.
        exists r.1. by apply Hbij.
    + by apply Hall.
Qed.

Lemma epoll_events_for_registered_lines_witness :
  let pc := mkEpoll {[7 := 1; 9 := 2]} {[1 := 7; 2 := 9]} {[7; 9]} in
  epoll_ok pc ∧
  epoll_events pc [(9, Some (Ascii.ascii_of_nat 49)); (7, Some (Ascii.ascii_of_nat 48))] = inr [(2, 1); (1, 0)].
Proof.
  assert (Hok : epoll_ok (mkEpoll {[7 := 1; 9 := 2]} {[1 := 7; 2 := 9]} {[7; 9]})).
  { split; simpl.
    - intros fd gpio. rewrite !lookup_insert_Some, !lookup_singleton_Some. lia.
    - rewrite dom_insert_L, dom_singleton_L. done. }
  split; [exact Hok|].
  destruct (epoll_events_for_registered_lines _
              [(9, Some (Ascii.ascii_of_nat 49)); (7, Some (Ascii.ascii_of_nat 48))] Hok) as (evs & Hevs & _).
  - repeat constructor; simpl; try (by eexists);
      rewrite elem_of_union, !elem_of_singleton; lia.
  - by vm_compute.
Defined.

(** ** [DebugPulseCounter] *)

Lemma debug_take_app n m p g :
  debug_take (n + m) p g =
    debug_take n p g ++ from_option (debug_take m p) [] (debug_after n p g).
Proof.
  revert g. induction n as [|n IH]; intros g; simpl; [done|].
  destruct (debug_next p g) as [ev g' | e |]; simpl; [|done..].
  by rewrite IH.
Qed.

Lemma debug_after_app n m p g :
  debug_after (n + m) p g = debug_after n p g ≫= debug_after m p.
Proof.
  revert g. induction n as [|n IH]; intros g; simpl; [done|].
  destruct (debug_next p g) as [ev g' | e |]; simpl; [|done..].
  by rewrite IH.
Qed.

(** The rest of a pass. *)
Lemma debug_rest_of_pass p level rest :
  size p ≠ 0%nat →
  debug_take (length rest) p (gen_yielded level rest) =
    (λ gpio, (gpio, Z.b2z level)) <$> rest ∧
  debug_after (length rest) p (gen_yielded level rest) = Some (gen_yielded level []).
Proof.
  intros Hp. induction rest as [|gpio rest [IH1 IH2]]; [done|].
  simpl. rewrite decide_False by done. simpl. by rewrite IH1, IH2.
Qed.

(** A whole pass, from the end of the previous one. *)
Lemma debug_whole_pass p level :
  size p ≠ 0%nat →
  debug_take (size p) p (gen_yielded level []) =
    (λ gpio, (gpio, Z.b2z (negb level))) <$> elements p ∧
  debug_after (size p) p (gen_yielded level []) = Some (gen_yielded (negb level) []).
Proof.
  intros Hp. unfold size, set_size in *. simpl in *.
  destruct (elements p) as [|gpio rest] eqn:He; [done|].
  simpl. rewrite decide_False by (unfold size, set_size; simpl; by rewrite He).
  unfold debug_pass. rewrite He.
  assert (Hsz : size p ≠ 0%nat) by (unfold size, set_size; simpl; by rewrite He).
  destruct (debug_rest_of_pass p (negb level) rest Hsz) as [H1 H2].
  by rewrite H1, H2.
Qed.

Lemma debug_cycle_length st : length (debug_cycle st) = (2 * size (pulses st))%nat.
Proof.
  unfold debug_cycle. rewrite length_app, !length_fmap.
  unfold size, set_size. simpl. lia.
Qed.

(** A whole turn through [cycle([0, 1])]. *)
Lemma debug_whole_cycle st :
  size (pulses st) ≠ 0%nat →
  debug_take (length (debug_cycle st)) (pulses st) (gen_yielded true []) =
    debug_cycle st ∧
  debug_after (length (debug_cycle st)) (pulses st) (gen_yielded true []) =
    Some (gen_yielded true []).
Proof.
  intros Hp. rewrite debug_cycle_length.
  replace (2 * size (pulses st))%nat with (size (pulses st) + size (pulses st))%nat by lia.
  rewrite debug_take_app, debug_after_app.
  destruct (debug_whole_pass (pulses st) true Hp) as [H1 H2].
  destruct (debug_whole_pass (pulses st) false Hp) as [H3 H4].
  rewrite H1, H2. simpl. by rewrite H3, H4.
Qed.

Lemma debug_new_like_end_of_cycle p n :
  size p ≠ 0%nat →
  debug_take n p gen_new = debug_take n p (gen_yielded true []).
Proof.
  intros Hp. destruct n as [|n]; [done|]. simpl. by rewrite decide_False.
Qed.

(** X5: the simulated source on a fixed, non-empty set of registered lines.
    The first events of a new generator are, turn after turn, one event at
    level 0 for every registered line followed by one event at level 1 for
    every registered line, each pass in the order of one snapshot of the
    keys: [n] turns give [n] copies of [debug_cycle]. *)
Theorem debug_source_cycles st n :
  size (pulses st) ≠ 0%nat →
  debug_take (n * length (debug_cycle st)) (pulses st) gen_new =
    mjoin (replicate n (debug_cycle st)).
Proof.
  intros Hp. rewrite (debug_new_like_end_of_cycle _ _ Hp).
  destruct (debug_whole_cycle st Hp) as [H1 H2].
  induction n as [|n IH]; [done|].
  simpl. rewrite debug_take_app, H1, H2. simpl. by rewrite IH.
Qed.

Lemma debug_source_cycles_witness :
  size (pulses example_state) ≠ 0%nat ∧
  debug_take 8 (pulses example_state) gen_new =
    debug_cycle example_state ++ debug_cycle example_state.
Proof.
  split; [by vm_compute|].
  pose proof (debug_source_cycles example_state 2) as H.
  rewrite <- (app_nil_r (debug_cycle example_state)) at 2.
  apply H. by vm_compute.
Defined.

(** X6: the simulated source when the last line goes.  If exactly one line
    is registered and its function setting is written to 0 while the
    generator is suspended at its [yield], no line is registered any more
    and resuming the generator raises [ZeroDivisionError] from
    [0.25/len(self.gpiomap)]; a generator not yet started yields nothing. *)
Theorem debug_source_fails_without_lines st inp level rest :
  consistent st →
  pulses st = {[inp]} →
  let st' := step st (op_setting inp (write_function 0)) in
  pulses st' = ∅ ∧
  debug_next (pulses st') (gen_yielded level rest) = Raised ZeroDivisionError ∧
  debug_next (pulses st') gen_new = Spinning.
Proof.
  intros Hc Hp st'.
  assert (Hin : inp ∈ pulses st) by (rewrite Hp; by apply elem_of_singleton).
  destruct (proj1 (consistent_registered st inp Hc) Hin) as (sd & Hsd & Hf & [svc Hsvc]).
  assert (Hp' : pulses st' = ∅).
  { unfold st', step. simpl.
    rewrite (function_disabled _ _ _ _ Hsd Hf Hin Hsvc). simpl.
    rewrite Hp. apply set_eq. intros x.
    rewrite elem_of_difference, elem_of_singleton. split; [tauto|].
    intros Hx. by apply not_elem_of_empty in Hx. }
  split; [done|]. rewrite Hp'. split.
  - unfold debug_next. rewrite decide_True; [done|]. apply size_empty.
  - unfold debug_next, debug_pass.
    assert (elements (∅ : gset Z) = []) as -> by apply elements_empty. done.
Qed.

Lemma debug_source_fails_without_lines_witness :
  let st := step example_state (op_setting 2 (write_function 0)) in
  consistent st ∧ pulses st = {[1]} ∧
  debug_next (pulses (step st (op_setting 1 (write_function 0)))) (gen_yielded true [])
    = Raised ZeroDivisionError.
Proof.
  assert (Hc : consistent (step example_state (op_setting 2 (write_function 0)))).
  { apply consistentb_sound. by vm_compute. }
  assert (Hp : pulses (step example_state (op_setting 2 (write_function 0))) = {[1]}).
  { by vm_compute. }
  split; [exact Hc|]. split; [exact Hp|].
  destruct (debug_source_fails_without_lines _ 1 true [] Hc Hp) as (_ & H & _).
  exact H.
Defined.

(** ** The simulated source and [poll] *)

Lemma one_level_rises sd :
  py_bool (effective_level sd 0) = negb (py_bool (effective_level sd 1)).
Proof.
  unfold effective_level, py_xor. by destruct (py_bool (invert sd)).
Qed.

Lemma rising_in_pass st inp sd lv (l : list Z) :
  settings st !! inp = Some sd →
  NoDup l →
  length (filter (λ ev, rising st inp ev = true) ((λ gpio, (gpio, lv)) <$> l)) =
    if py_bool (effective_level sd lv) && bool_decide (inp ∈ l) then 1%nat else 0%nat.
Proof.
  intros Hsd Hnd.
  assert (Hr : ∀ g, rising st inp (g, lv) =
                    bool_decide (g = inp) && py_bool (effective_level sd lv)).
  { intros g. unfold rising. simpl. by rewrite Hsd. }
  induction Hnd as [|g l Hg Hnd IH].
  - simpl. by rewrite andb_false_r.
  - rewrite fmap_cons, filter_cons.
    destruct (decide (rising st inp (g, lv) = true)) as [Hd | Hd]; rewrite Hr in Hd.
    + apply andb_true_iff in Hd as [Hgi Hl]. apply bool_decide_eq_true in Hgi.
      subst g. simpl. rewrite IH, Hl. simpl.
      rewrite (bool_decide_eq_false_2 (inp ∈ l)) by done.
      by rewrite bool_decide_eq_true_2 by apply list_elem_of_here.
    + rewrite IH. apply not_true_is_false in Hd.
      destruct (py_bool (effective_level sd lv)); simpl; [|done].
      rewrite andb_true_r in Hd. apply bool_decide_eq_false in Hd.
      destruct (decide (inp ∈ l)) as [Hin | Hin].
      * rewrite !bool_decide_eq_true_2; [done | by apply list_elem_of_further | done].
      * rewrite !bool_decide_eq_false_2; [done | | done].
        rewrite elem_of_cons. intros [-> | ?]; done.
Qed.

Lemma rising_in_cycle st inp sd :
  settings st !! inp = Some sd →
  inp ∈ pulses st →
  length (filter (λ ev, rising st inp ev = true) (debug_cycle st)) = 1%nat.
Proof.
  intros Hsd Hin. unfold debug_cycle. rewrite filter_app, length_app.
  rewrite !(rising_in_pass st inp sd) by (done || apply NoDup_elements).
  rewrite bool_decide_eq_true_2 by by apply elem_of_elements.
  rewrite !andb_true_r, one_level_rises.
  by destruct (py_bool (effective_level sd 1)).
Qed.

Lemma rising_in_cycles st inp sd n :
  settings st !! inp = Some sd →
  inp ∈ pulses st →
  length (filter (λ ev, rising st inp ev = true)
            (mjoin (replicate n (debug_cycle st)))) = n.
Proof.
  intros Hsd Hin. induction n as [|n IH]; [done|].
  simpl. rewrite filter_app, length_app, IH.
  by rewrite (rising_in_cycle st inp sd).
Qed.

(** X7: the simulated source drives every registered line at the same
    pace, whatever its polarity.  In a consistent state, [poll] consumes
    the events of [n] turns of the simulated source without raising, and
    every registered line, inverted or not, then publishes its count
    advanced by [n] increments: [(c + n) mod MAXCOUNT] when [c] is below
    [MAXCOUNT] or [n] is at least 1. *)
Theorem simulated_turn_counts_once st inp c n :
  consistent st →
  inp ∈ pulses st →
  published st inp "/Count" = Some (VInt c) →
  0 <= c < MAXCOUNT ∨ (0 < n)%nat →
  rising_count st inp (debug_cycle st) = 1 ∧
  ∃ st', poll (mjoin (replicate n (debug_cycle st))) st = Ret tt st' ∧
         published st' inp "/Count" = Some (VInt ((c + Z.of_nat n) mod MAXCOUNT)).
Proof.
  intros Hc Hin Hcount Hn.
  destruct (proj1 (consistent_registered st inp Hc) Hin) as (sd & Hsd & _).
  split.
  - unfold rising_count. by rewrite (rising_in_cycle st inp sd).
  - destruct (poll_count _ _ _ _ (mjoin (replicate n (debug_cycle st)))
                (c_on _ Hc) Hcount) as (st' & Hrun & _ & _ & Hcount').
    exists st'. split; [done|].
    rewrite Hcount', (rising_in_cycles st inp sd) by done.
    by rewrite bump_iter.
Qed.

Lemma simulated_turn_counts_once_witness :
  consistent example_state ∧ 2 ∈ pulses example_state ∧
  settings example_state !! 2 = Some (mkSettings 2 0 (1 # 1000) 0 1) ∧
  ∃ st', poll (mjoin (replicate 3 (debug_cycle example_state))) example_state
           = Ret tt st' ∧
         published st' 2 "/Count" = Some (VInt 3).
Proof.
  split; [apply consistentb_sound; by vm_compute|].
  split; [apply (bool_decide_unpack _); by vm_compute|].
  split; [by vm_compute|].
  destruct (simulated_turn_counts_once example_state 2 0 3)
    as (_ & st' & Hrun & Hcount).
  - apply consistentb_sound. by vm_compute.
  - apply (bool_decide_unpack _). by vm_compute.
  - by vm_compute.
  - left. by vm_compute.
  - exists st'. split; [exact Hrun|]. rewrite Hcount. by vm_compute.
Defined.

(** ** Line numbers and service names *)

Lemma enumerate_lookup {A} (l : list A) start k :
  (list_to_map (enumerate start l) : gmap Z A) !! k =
    if decide (start <= k) then l !! Z.to_nat (k - start) else None.
Proof.
  revert start. induction l as [|x l IH]; intros start; simpl.
  - rewrite lookup_empty. by case_decide.
  - destruct (decide (k = start)) as [-> | Hne].
    + rewrite lookup_insert_eq, decide_True by lia.
      by replace (start - start) with 0 by lia.
    + rewrite lookup_insert_ne, IH by done.
      destruct (decide (start <= k)) as [Hle | Hgt].
      * rewrite decide_True by lia.
        replace (Z.to_nat (k - start)) with (S (Z.to_nat (k - (start + 1)))) by lia.
        done.
      * by rewrite decide_False by lia.
Qed.

Lemma enumerate_keys_range {A} (l : list A) start k :
  k ∈ (enumerate start l).*1 ↔ start <= k < start + Z.of_nat (length l).
Proof.
  revert start. induction l as [|x l IH]; intros start; simpl.
  - rewrite elem_of_nil. lia.
  - rewrite elem_of_cons, IH. lia.
Qed.

(** X8: lines are numbered from 1 in command-line order.  After start-up
    the lines that have settings are exactly the numbers 1 to the number of
    paths given, and the path the handler looks up for line [k] is the
    [k]-th path; looking up any other number raises [KeyError]. *)
Theorem lines_numbered_from_one a persisted k :
  (∀ inp, settings_in_range (persisted inp)) →
  let st := started a persisted in
  (is_Some (settings st !! k) ↔ 1 <= k <= Z.of_nat (length (arg_inputs a))) ∧
  (∀ pth, arg_inputs a !! Z.to_nat (k - 1) = Some pth → 1 <= k →
          get_input k st = Ret pth st) ∧
  (¬ 1 <= k <= Z.of_nat (length (arg_inputs a)) →
   get_input k st = Raise KeyError st).
Proof.
  intros Hr st.
  destruct (startup_spec a persisted Hr) as (_ & Hc & _ & Hi).
  fold st in Hc, Hi. split_and!.
  - rewrite (c_settings _ _ (c_on _ Hc)), Hi, enumerate_keys_range. lia.
  - intros pth Hpth Hk. apply get_input_Some.
    by rewrite Hi, enumerate_lookup, decide_True.
  - intros Hk. unfold get_input. mstep get_eval. apply lift_None.
    rewrite Hi, enumerate_lookup. case_decide; [|done].
    apply lookup_ge_None. lia.
Qed.

Lemma lines_numbered_from_one_witness :
  (∀ inp, settings_in_range (example_persisted inp)) ∧
  get_input 2 example_state = Ret "/in/1" example_state ∧
  get_input 3 example_state = Raise KeyError example_state.
Proof.
  split; [apply example_in_range|].
  destruct (lines_numbered_from_one example_args example_persisted 2 example_in_range)
    as (_ & Hget & _).
  destruct (lines_numbered_from_one example_args example_persisted 3 example_in_range)
    as (_ & _ & Hnone).
  split.
  - apply Hget; [done | lia].
  - apply Hnone. simpl. lia.
Defined.

(** The most significant digit is not zero. *)
Lemma pretty_N_go_leading x s :
  (0 < x)%N → ∃ c r, pretty_N_go x s = String c r ∧ c ≠ Ascii.ascii_of_nat 48.
Proof.
  revert s. induction (N.lt_wf_0 x) as [x _ IH]; intros s Hx.
  rewrite pretty_N_go_step by done.
  destruct (decide (x `div` 10 = 0)%N) as [Hz | Hnz].
  - rewrite Hz, pretty_N_go_0. eexists _, _. split; [done|].
    assert (Hlt : (x < 10)%N) by (by apply N.div_small_iff in Hz).
    rewrite N.mod_small by done.
    assert (x = 1 ∨ x = 2 ∨ x = 3 ∨ x = 4 ∨ x = 5 ∨ x = 6 ∨ x = 7 ∨ x = 8 ∨ x = 9)%N
      as Hcases by lia.
    destruct Hcases as [-> | [-> | [-> | [-> | [-> | [-> | [-> | [-> | ->]]]]]]]];
      by compute.
  - apply IH; [apply N.div_lt; lia | by apply N.neq_0_lt_0].
Qed.

Lemma pretty_Z_leading n :
  0 < n → ∃ c r, pretty n = String c r ∧ c ≠ Ascii.ascii_of_nat 48.
Proof.
  intros Hn. destruct n as [|p|p]; try lia.
  unfold pretty, pretty_Z, pretty, pretty_positive, pretty, pretty_N.
  rewrite decide_False by done. apply pretty_N_go_leading. lia.
Qed.

Lemma format_02d_inj n m :
  0 <= n → 0 <= m → format_02d n = format_02d m → n = m.
Proof.
  assert (Hmixed : ∀ a b, 0 <= a → 0 <= b →
            (String.length (pretty a) < 2)%nat → ¬ (String.length (pretty b) < 2)%nat →
            String.append "0" (pretty a) ≠ pretty b).
  { intros a b Ha Hb Hla Hlb Heq.
    assert (b = 0 ∨ 0 < b) as [-> | Hpos] by lia.
    - apply Hlb. compute. lia.
    - destruct (pretty_Z_leading b Hpos) as (c & r & Hp & Hc).
      rewrite Hp in Heq. simpl in Heq. injection Heq as Hc' _. by apply Hc. }
  intros Hn Hm. unfold format_02d.
  destruct (decide (String.length (pretty n) < 2)%nat) as [Hln | Hln];
    destruct (decide (String.length (pretty m) < 2)%nat) as [Hlm | Hlm]; intros Heq.
  - simpl in Heq. injection Heq as Heq. by apply (inj pretty).
  - by destruct (Hmixed n m).
  - symmetry in Heq. by destruct (Hmixed m n).
  - by apply (inj pretty).
Qed.

Lemma service_name_inj base f1 f2 p1 p2 gpio1 gpio2 :
  FUNCTIONS f1 = Some p1 → FUNCTIONS f2 = Some p2 →
  0 <= gpio1 → 0 <= gpio2 →
  service_name base (id p1) gpio1 = service_name base (id p2) gpio2 →
  f1 = f2 ∧ gpio1 = gpio2.
Proof.
  unfold FUNCTIONS, service_name. intros H1 H2 Hg1 Hg2 Heq.
  apply (inj (String.append base)) in Heq.
  repeat case_decide; simplify_eq/=; (split; [congruence|]); by apply format_02d_inj.
Qed.

(** X9: no two services of a run share a bus name.  For line numbers that
    are not negative, the names [register_gpio] gives to the services of
    two different lines, or to the services of one line under the two
    functions, are different. *)
Theorem service_names_distinct base f1 f2 p1 p2 gpio1 gpio2 :
  FUNCTIONS f1 = Some p1 → FUNCTIONS f2 = Some p2 →
  0 <= gpio1 → 0 <= gpio2 →
  f1 ≠ f2 ∨ gpio1 ≠ gpio2 →
  service_name base (id p1) gpio1 ≠ service_name base (id p2) gpio2.
Proof.
  intros H1 H2 Hg1 Hg2 Hne Heq.
  destruct (service_name_inj _ _ _ _ _ _ _ H1 H2 Hg1 Hg2 Heq). tauto.
Qed.

Lemma service_names_distinct_witness :
  service_name "com.victronenergy" "pulsemeter" 3 = "com.victronenergy.pulsemeter.input03" ∧
  service_name "com.victronenergy" "pulsemeter" 30 = "com.victronenergy.pulsemeter.input30" ∧
  service_name "com.victronenergy" "pulsemeter" 3 ≠
    service_name "com.victronenergy" "pulsemeter" 30.
Proof.
  split; [by vm_compute|]. split; [by vm_compute|].
  apply (service_names_distinct "com.victronenergy" 1 1
           (mkProduct "pulsemeter" "Pulse meter" 0xA163)
           (mkProduct "pulsemeter" "Pulse meter" 0xA163) 3 30);
    [reflexivity | reflexivity | lia | lia | right; lia].
Defined.

(** ** The state after start-up *)

Lemma startup_input_result persisted st inp pth :
  settings_in_range (persisted inp) →
  services st !! inp = None →
  ∃ st', startup_input persisted (inp, pth) st = Ret tt st' ∧
         args st' = args st ∧ inputs st' = inputs st ∧
         settings st' = <[inp := persisted inp]> (settings st) ∧
         services st' !! inp = line_service (args st) pth inp (persisted inp) ∧
         (∀ j, j ≠ inp → services st' !! j = services st !! j).
Proof.
  intros Hr Hnone. set (sd := persisted inp).
  unfold startup_input, line_service. simpl.
  erewrite bind_Ret by reflexivity.
  mstep_by get_settings_Some ltac:(simpl; apply lookup_insert_eq).
  fold sd.
  destruct (decide (function sd > 0)) as [Hf | Hf].
  - assert (Hn : function sd = INPUT_FUNCTION_COUNTER ∨ function sd = INPUT_FUNCTION_INPUT).
    { destruct Hr as [? _]. fold sd in H.
      unfold INPUT_FUNCTION_COUNTER, INPUT_FUNCTION_INPUT. lia. }
    destruct (type_name_in_range _ Hr) as [t Ht]. fold sd in Ht.
    rewrite (register_gpio_eval _ pth inp (function sd) sd t);
      [ | done | simpl; apply lookup_insert_eq | done ].
    eexists. split; [done|]. simpl. rewrite Ht. simpl.
    split_and!; try done.
    + apply lookup_insert_eq.
    + intros j Hj. by rewrite lookup_insert_ne.
  - eexists. split; [done|]. simpl. by split_and!.
Qed.

Lemma startup_loop_result persisted (l : list (Z * string)) st :
  (∀ inp, settings_in_range (persisted inp)) →
  NoDup l.*1 →
  (∀ k, k ∈ l.*1 → services st !! k = None) →
  ∃ st', for_each l (startup_input persisted) st = Ret tt st' ∧
         args st' = args st ∧ inputs st' = inputs st ∧
         (∀ k, settings st' !! k =
               if decide (k ∈ l.*1) then Some (persisted k) else settings st !! k) ∧
         (∀ k, services st' !! k =
               match (list_to_map l : gmap Z string) !! k with
               | Some pth => line_service (args st) pth k (persisted k)
               | None => services st !! k
               end).
Proof.
  intros Hr. revert st. induction l as [| [k0 pth0] l IH]; intros st Hnd Hnone.
  - exists st. split_and!; try done.
  - simpl in Hnd. apply NoDup_cons in Hnd as [Hk0 Hnd].
    destruct (startup_input_result persisted st k0 pth0 (Hr k0))
      as (st1 & Hev & Ha1 & Hi1 & Hse1 & Hsv1 & Hfr1).
    { apply Hnone. simpl. apply list_elem_of_here. }
    destruct (IH st1 Hnd) as (st' & Hrun & Ha & Hi & Hse & Hsv).
    { intros k Hk. rewrite Hfr1; [|intros ->; done].
      apply Hnone. simpl. by apply list_elem_of_further. }
    exists st'. split_and!.
    + simpl. by mstep Hev.
    + congruence.
    + congruence.
    + intros k. rewrite Hse, Hse1. simpl.
      destruct (decide (k = k0)) as [-> | Hne].
      * rewrite decide_False by done. rewrite lookup_insert_eq.
        by rewrite decide_True by apply list_elem_of_here.
      * rewrite lookup_insert_ne by done.
        destruct (decide (k ∈ l.*1)) as [Hin | Hin].
        -- by rewrite decide_True by by apply list_elem_of_further.
        -- rewrite decide_False; [done|]. rewrite elem_of_cons. tauto.
    + intros k. rewrite Hsv. simpl.
      destruct (decide (k = k0)) as [-> | Hne].
      * rewrite lookup_insert_eq.
        assert (Hn : (list_to_map l : gmap Z string) !! k0 = None)
          by by apply not_elem_of_list_to_map.
        by rewrite Hn, Hsv1.
      * rewrite lookup_insert_ne by done. rewrite Ha1.
        destruct (list_to_map l !! k); [done|]. by apply Hfr1.
Qed.

Lemma started_result a persisted :
  (∀ inp, settings_in_range (persisted inp)) →
  let st := started a persisted in
  args st = a ∧ inputs st = enumerate 1 (arg_inputs a) ∧
  (∀ k, settings st !! k =
        if decide (k ∈ (enumerate 1 (arg_inputs a)).*1)
        then Some (persisted k) else None) ∧
  (∀ k, services st !! k =
        (list_to_map (enumerate 1 (arg_inputs a)) : gmap Z string) !! k ≫=
          λ pth, line_service a pth k (persisted k)).
Proof.
  intros Hr st. unfold st, started, startup.
  erewrite bind_Ret by reflexivity.
  destruct (startup_loop_result persisted (enumerate 1 (arg_inputs a)) (initial_state a) Hr)
    as (st' & Hrun & Ha & Hi & Hse & Hsv).
  - apply enumerate_NoDup.
  - intros k _. apply lookup_empty.
  - simpl in *. rewrite Hrun. simpl. by split_and!.
Qed.

Lemma line_service_count a pth inp sd :
  settings_in_range sd →
  (line_service a pth inp sd ≫= λ svc, dbusobjects svc !! "/Count") =
    if decide (function sd > 0) then Some (VInt (count sd)) else None.
Proof.
  intros Hr. unfold line_service. case_decide; [|done].
  destruct (type_name_in_range _ Hr) as [t ->]. simpl.
  unfold fresh_service. case_decide.
  - apply counter_service_count.
  - apply input_service_count.
Qed.



(** ** Restart *)

Lemma stored_in_range st :
  consistent st → ∀ inp, settings_in_range (stored st inp).
Proof.
  intros Hc inp. unfold stored.
  destruct (settings st !! inp) as [sd|] eqn:Hsd; simpl.
  - apply (ok_range _ _ _ (c_lines _ _ (c_on _ Hc) _ _ Hsd)).
  - unfold default_settings, settings_in_range. rewrite MAXTYPE_eq, MAXCOUNT_eq.
    simpl. unfold Qle. simpl. lia.
Qed.

(** X11: counts survive a restart that follows a save.  Take any state the
    program reaches from start-up by in-bounds settings writes, events and
    saves, run [save_counters] in it, and start the program again on the
    same command line with the settings then stored: every line publishes
    the [/Count] it published before the save, a line without a service
    again has none, and every line finds the settings the save left. *)
Theorem counts_survive_restart a persisted ops k :
  (∀ inp, settings_in_range (persisted inp)) →
  Forall valid_op ops →
  let st := run (started a persisted) ops in
  let st' := step st op_save in
  let again := started a (stored st') in
  published again k "/Count" = published st k "/Count" ∧
  settings again !! k = settings st' !! k ∧
  (is_Some (services again !! k) ↔ is_Some (services st !! k)).
Proof.
  intros Hr Hv st st' again.
  destruct (startup_spec a persisted Hr) as (_ & Hc0 & Ha0 & Hi0).
  destruct (run_consistent _ ops Hc0 Hv) as (Hc & Hi & Ha). fold st in Hc, Hi, Ha.
  destruct (save_counters_spec st Hc) as (st1 & Hsave & Hc1 & _ & Hi1 & Hs1 & _ & Hset).
  assert (Hst' : step st op_save = st1) by (unfold step; simpl; by rewrite Hsave).
  subst again st'. rewrite Hst'. clear Hst'.
  pose proof (stored_in_range st1 Hc1) as Hr1.
  destruct (started_result a (stored st1) Hr1) as (_ & _ & Hse & Hsv).
  set (again := started a (stored st1)) in *.
  assert (Hkeys : (inputs st1).*1 = (enumerate 1 (arg_inputs a)).*1) by congruence.
  destruct (decide (k ∈ (enumerate 1 (arg_inputs a)).*1)) as [Hkey | Hkey].
  - assert (Hsd1 : is_Some (settings st1 !! k)).
    { apply (c_settings _ _ (c_on _ Hc1)). by rewrite Hkeys. }
    destruct Hsd1 as [sd1 Hsd1].
    assert (Hstored : stored st1 k = sd1) by (unfold stored; by rewrite Hsd1).
    pose proof Hsd1 as Hsd. rewrite Hset in Hsd.
    destruct (settings st !! k) as [sd|] eqn:Hsdk; [|done].
    simpl in Hsd. injection Hsd as Hsaved.
    pose proof (c_lines _ _ (c_on _ Hc) _ _ Hsdk) as Hok.
    destruct (inputs_lookup _ _ Hkey) as [pth Hpth].
    assert (Hagain : services again !! k = line_service a pth k sd1).
    { rewrite Hsv, Hpth. simpl. by rewrite Hstored. }
    assert (Hfun : function sd1 = function sd) by (rewrite <- Hsaved; apply saved_function).
    split_and!.
    + unfold published at 1. rewrite Hagain.
      rewrite (line_service_count a pth k sd1) by (rewrite <- Hstored; apply Hr1).
      rewrite Hfun. destruct (decide (function sd > 0)) as [Hf | Hf].
      * destruct (ok_count _ _ _ Hok) as (c & Hcount & _); [lia|].
        rewrite Hcount. rewrite <- Hsaved. unfold saved.
        by rewrite decide_True, Hcount.
      * symmetry. apply published_None.
        destruct (services st !! k) eqn:E; [|done].
        exfalso. assert (function sd ≠ 0) by (apply (ok_enabled _ _ _ Hok); eauto).
        destruct (ok_range _ _ _ Hok) as [? _]. lia.
    + by rewrite Hse, decide_True, Hstored.
    + rewrite Hagain, (ok_enabled _ _ _ Hok). unfold line_service. rewrite Hfun.
      destruct (ok_range _ _ _ Hok) as [? _].
      destruct (type_name_in_range sd1) as [t ->];
        [rewrite <- Hstored; apply Hr1|].
      case_decide; simpl; split; intros; try done; try lia; try by eexists.
  - assert (Hnone1 : settings st1 !! k = None).
    { destruct (settings st1 !! k) eqn:E; [|done].
      exfalso. apply Hkey. rewrite <- Hkeys. apply (c_settings _ _ (c_on _ Hc1)). eauto. }
    assert (Hnone : settings st !! k = None).
    { rewrite Hset in Hnone1. by destruct (settings st !! k). }
    destruct (c_orphans _ _ (c_on _ Hc) _ Hnone) as [Hsvn _].
    assert (Hagain : services again !! k = None).
    { rewrite Hsv. assert (Hl : (list_to_map (enumerate 1 (arg_inputs a)) : gmap Z string) !! k = None)
        by by apply not_elem_of_list_to_map.
      by rewrite Hl. }
    split_and!.
    + unfold published. by rewrite Hagain, Hsvn.
    + by rewrite Hse, decide_False.
    + by rewrite Hagain, Hsvn.
Qed.

Lemma counts_survive_restart_witness :
  let ops := [op_pulse 1 1; op_pulse 1 1; op_pulse 2 0] in
  let st := run (started example_args example_persisted) ops in
  (∀ inp, settings_in_range (example_persisted inp)) ∧
  Forall valid_op ops ∧
  published st 1 "/Count" = Some (VInt 7) ∧
  published (started example_args (stored (step st op_save))) 1 "/Count" =
    Some (VInt 7).
Proof.
  assert (Hv : Forall valid_op [op_pulse 1 1; op_pulse 1 1; op_pulse 2 0])
    by (repeat constructor).
  split; [apply example_in_range|]. split; [exact Hv|]. split; [by vm_compute|].
  destruct (counts_survive_restart example_args example_persisted _ 1
              example_in_range Hv) as (Hcount & _).
  rewrite Hcount. clear. by vm_compute.
Defined.

(** ** What [poll] leaves alone *)

Lemma poll_event_frame keys st ev :
  consistent_on keys st →
  ∃ st', poll_event ev st = Ret tt st' ∧ consistent_on keys st' ∧
         settings st' = settings st ∧ pulses st' = pulses st ∧
         args st' = args st ∧ inputs st' = inputs st ∧
         (∀ j, j ≠ ev.1 → services st' !! j = services st !! j) ∧
         (∀ j, servicename <$> services st' !! j = servicename <$> services st !! j) ∧
         (∀ j, published_paths st' j = published_paths st j) ∧
         (∀ j path, path ≠ "/Count" → path ≠ "/Aggregate" → path ≠ "/State" →
                    published st' j path = published st j path).
Proof.
  intros Hc.
  destruct (poll_event_consistent keys st ev Hc)
    as (st' & Hev & Hc' & Hse & Hp & Ha & Hi & Hfr).
  exists st'. do 7 (split; [done|]).
  destruct ev as [inp level]. simpl in Hfr.
  destruct (services st !! inp) as [svc|] eqn:Hs.
  2:{ rewrite poll_event_absent in Hev by done. by injection Hev as <-. }
  destruct (line_ready _ _ _ _ Hc Hs) as (sd & c & Hsd & Hok & Hf & Hcount & Hr & Hag & Hst).
  rewrite (poll_event_spec _ _ _ _ _ _ _ Hc Hs Hsd Hcount) in Hev.
  injection Hev as <-.
  split_and!.
  - intros j. destruct (decide (j = inp)) as [-> | Hj].
    + simpl. by rewrite lookup_insert_eq, Hs.
    + by rewrite Hfr.
  - intros j. unfold published_paths. destruct (decide (j = inp)) as [-> | Hj].
    + simpl. rewrite lookup_insert_eq, Hs. simpl. f_equal.
      apply poll_objects_dom.
      * apply elem_of_dom. eauto.
      * intros Hg. by apply elem_of_dom, Hag.
      * intros Hg. by apply elem_of_dom, Hst.
    + by rewrite Hfr.
  - intros j path H1 H2 H3. unfold published. destruct (decide (j = inp)) as [-> | Hj].
    + simpl. rewrite lookup_insert_eq, Hs. simpl. by apply poll_objects_other.
    + by rewrite Hfr.
Qed.

(** X12: what [poll] never touches.  From a consistent state, [poll]
    returns on every finite run of events and changes nothing but
    readings: the settings (so the persisted counts), the registrations
    with the pulse source and the set of published paths of every line
    stay as they were, as do every service's name and all its values other
    than [/Count], [/Aggregate] and [/State]; a line no event names keeps
    its service untouched. *)
Theorem poll_changes_only_readings st (events : list (Z * Z)) :
  consistent st →
  ∃ st', poll events st = Ret tt st' ∧ consistent st' ∧
         settings st' = settings st ∧ pulses st' = pulses st ∧
         (∀ j, j ∉ events.*1 → services st' !! j = services st !! j) ∧
         (∀ j, servicename <$> services st' !! j = servicename <$> services st !! j) ∧
         (∀ j, published_paths st' j = published_paths st j) ∧
         (∀ j path, path ≠ "/Count" → path ≠ "/Aggregate" → path ≠ "/State" →
                    published st' j path = published st j path).
Proof.
  revert st. induction events as [| ev events IH]; intros st Hc.
  - exists st. by split_and!.
  - destruct Hc as [Hnd Hc].
    destruct (poll_event_frame _ st ev Hc)
      as (st1 & Hev & Hc1 & Hse1 & Hp1 & Ha1 & Hi1 & Hfr1 & Hn1 & Hpa1 & Hv1).
    assert (Hcons1 : consistent st1) by (split; by rewrite Hi1).
    destruct (IH st1 Hcons1) as (st' & Hrun & Hc' & Hse & Hp & Hfr & Hn & Hpa & Hv).
    exists st'. split_and!.
    + unfold poll in *. simpl. by mstep Hev.
    + done.
    + congruence.
    + congruence.
    + intros j Hj. rewrite fmap_cons, not_elem_of_cons in Hj. destruct Hj as [Hj1 Hj2].
      rewrite Hfr by done. by apply Hfr1.
    + intros j. by rewrite Hn.
    + intros j. by rewrite Hpa.
    + intros j path H1 H2 H3. rewrite Hv by done. by apply Hv1.
Qed.

Lemma poll_changes_only_readings_witness :
  consistent example_state ∧
  ∃ st', poll [(1, 1); (2, 0); (1, 0); (1, 1)] example_state = Ret tt st' ∧
         settings st' = settings example_state ∧
         published st' 1 "/ProductId" = published example_state 1 "/ProductId".
Proof.
  split; [apply consistentb_sound; by vm_compute|].
  destruct (poll_changes_only_readings example_state [(1, 1); (2, 0); (1, 0); (1, 1)])
    as (st' & Hrun & _ & Hse & _ & _ & _ & _ & Hv).
  - apply consistentb_sound. by vm_compute.
  - exists st'. split; [exact Hrun|]. split; [exact Hse|]. by apply Hv.
Defined.

(** ** [save_counters] twice *)

Lemma saved_twice st inp sd : saved st inp (saved st inp sd) = saved st inp sd.
Proof.
  unfold saved. destruct (decide (function sd > 0)) as [Hf | Hf].
  - destruct (published st inp "/Count") as [[c | q | s] |]; simpl;
      rewrite ?decide_True by done; done.
  - by rewrite decide_False.
Qed.

Lemma State_eq st st' :
  args st' = args st → inputs st' = inputs st → services st' = services st →
  settings st' = settings st → pulses st' = pulses st → st' = st.
Proof. destruct st, st'. simpl. by intros -> -> -> -> ->. Qed.

(** X13: [save_counters] is idempotent.  Run from a consistent state, a
    second run straight after the first changes nothing: with no event in
    between, the timer firing again (or shutdown following the timer)
    stores the same counts. *)
Theorem save_counters_idempotent st :
  consistent st →
  step (step st op_save) op_save = step st op_save.
Proof.
  intros Hc.
  destruct (save_counters_spec st Hc) as (st1 & Hs1 & Hc1 & Ha1 & Hi1 & Hsv1 & Hp1 & Hset1).
  destruct (save_counters_spec st1 Hc1) as (st2 & Hs2 & _ & Ha2 & Hi2 & Hsv2 & Hp2 & Hset2).
  unfold step. simpl. rewrite Hs1. simpl. rewrite Hs2. simpl.
  apply State_eq; try done.
  apply map_eq. intros inp. rewrite Hset2, Hset1.
  destruct (settings st !! inp) as [sd|]; [|done]. simpl.
  by rewrite (saved_frame st st1) , saved_twice by done.
Qed.

Lemma save_counters_idempotent_witness :
  let st := run example_state [op_pulse 1 1; op_pulse 1 1] in
  consistent st ∧ step (step st op_save) op_save = step st op_save.
Proof.
  split; [apply consistentb_sound; by vm_compute|].
  apply save_counters_idempotent. apply consistentb_sound. by vm_compute.
Defined.

(** ** Enabling and disabling a line *)



(** ** The identity of a published line *)

Lemma identity_fresh new a pth inp sd t :
  new = INPUT_FUNCTION_COUNTER ∨ new = INPUT_FUNCTION_INPUT →
  let svc := fresh_service new a pth inp sd t in
  ∃ p, FUNCTIONS new = Some p ∧
       servicename svc = service_name (servicebase a) (id p) inp ∧
       dbusobjects svc !! "/DeviceInstance" = Some (VInt inp) ∧
       dbusobjects svc !! "/ProductId" = Some (VInt (product p)) ∧
       dbusobjects svc !! "/ProductName" = Some (VStr (name p)) ∧
       dbusobjects svc !! "/Connected" = Some (VInt 1) ∧
       dbusobjects svc !! "/Management/Connection" = Some (VStr pth) ∧
       dbusobjects svc !! "/Management/ProcessName" = Some (VStr (script_file a)) ∧
       dbusobjects svc !! "/Management/ProcessVersion" = Some (VStr VERSION).
Proof.
  intros [-> | ->]; eexists; (split; [reflexivity|]);
    unfold fresh_service; simpl; split_and!; reflexivity.
Qed.

Lemma identity_ok_transfer st st' j :
  args st' = args st → inputs st' = inputs st →
  (∀ sd', settings st' !! j = Some sd' →
          ∃ sd, settings st !! j = Some sd ∧ function sd = function sd') →
  (∀ svc', services st' !! j = Some svc' →
           ∃ svc, services st !! j = Some svc ∧ servicename svc' = servicename svc ∧
                  ∀ path, path ≠ "/Count" → path ≠ "/Aggregate" → path ≠ "/State" →
                          path ≠ "/Type" →
                          dbusobjects svc' !! path = dbusobjects svc !! path) →
  identity_ok st j → identity_ok st' j.
Proof.
  intros Ha Hi Hse Hsv Hid svc' sd' Hs' Hsd'.
  destruct (Hse _ Hsd') as (sd & Hsd & Hf).
  destruct (Hsv _ Hs') as (svc & Hs & Hn & Hv).
  destruct (Hid svc sd Hs Hsd) as (p & pth & H1 & H2 & H3 & H4 & H5 & H6 & H7 & H8 & H9 & H10).
  exists p, pth. rewrite Ha, Hi, <- Hf, Hn, !Hv by done. by split_and!.
Qed.

Lemma started_identity a persisted j :
  (∀ inp, settings_in_range (persisted inp)) →
  identity_ok (started a persisted) j.
Proof.
  intros Hr svc sd Hs Hsd.
  destruct (started_result a persisted Hr) as (Ha & Hi & Hse & Hsv).
  rewrite Hse in Hsd. rewrite Hsv in Hs. rewrite Ha, Hi.
  case_decide as Hkey; [|done]. injection Hsd as <-.
  destruct (list_to_map (enumerate 1 (arg_inputs a)) !! j) as [pth|] eqn:Hpth; [|done].
  simpl in Hs. unfold line_service in Hs.
  case_decide as Hf; [|done].
  destruct (type_name (inputtype (persisted j))) as [t|]; [|done].
  simpl in Hs. injection Hs as <-.
  destruct (identity_fresh (function (persisted j)) a pth j (persisted j) t) as (p & Hp).
  { destruct (Hr j) as [? _].
    unfold INPUT_FUNCTION_COUNTER, INPUT_FUNCTION_INPUT. lia. }
  destruct Hp as (Hp & Hrest).
  exists p, pth. split; [exact Hp|]. split; [done|]. exact Hrest.
Qed.

Lemma step_identity st o j :
  consistent st → valid_op o → identity_ok st j → identity_ok (step st o) j.
Proof.
  intros Hc Hv Hid.
  destruct (step_consistent st o Hc Hv) as (_ & Hi & Ha).
  destruct o as [inp w | inp level |].
  - destruct (settings st !! inp) as [sd|] eqn:Hsd.
    2:{ unfold step. simpl. by rewrite setting_changed_unknown. }
    simpl in Hv.
    destruct (setting_changed_final st inp w sd Hc Hsd Hv) as (Hse & Hfr & Hw).
    change (final_state (setting_changed inp w st)) with (step st (op_setting inp w)) in *.
    set (st' := step st (op_setting inp w)) in *.
    destruct (decide (j = inp)) as [-> | Hj].
    2:{ apply (identity_ok_transfer st); try done.
        - intros sd'. rewrite Hse, lookup_insert_ne by done. eauto.
        - intros svc'. rewrite Hfr by done. eauto. }
    destruct Hc as [Hnd Hc].
    pose proof (c_lines _ _ Hc _ _ Hsd) as Hok.
    destruct w as [new | new | new | new | new]; cbv beta iota in Hw;
      try (apply (identity_ok_transfer st); try done;
           [ intros sd'; rewrite Hse, lookup_insert_eq; intros [= <-]; eauto
           | intros svc'; rewrite Hw; eauto ]).
    + destruct (decide (new = 0)) as [-> | Hnew].
      { intros svc' sd' Hs'. congruence. }
      assert (Hn : new = INPUT_FUNCTION_COUNTER ∨ new = INPUT_FUNCTION_INPUT).
      { simpl in Hv. unfold INPUT_FUNCTION_COUNTER, INPUT_FUNCTION_INPUT. lia. }
      assert (Hkey : inp ∈ (inputs st).*1) by (apply (c_settings _ _ Hc); eauto).
      destruct (inputs_lookup _ _ Hkey) as [pth Hpth].
      destruct (type_name_in_range _ (ok_range _ _ _ Hok)) as [t Ht].
      assert (Hst' : st' = mkState (args st) (inputs st)
                (<[inp := fresh_service new (args st) pth inp
                            (apply_write (write_function new) sd) t]> (services st))
                (<[inp := apply_write (write_function new) sd]> (settings st))
                ({[inp]} ∪ pulses st)).
      { unfold st', step. simpl.
        rewrite (function_enabled st inp sd new pth t); try done.
        apply (ok_registered _ _ _ Hok). }
      rewrite Hst'. intros svc' sd'. simpl. rewrite !lookup_insert_eq.
      intros [= <-] [= <-].
      destruct (identity_fresh new (args st) pth inp
                  (apply_write (write_function new) sd) t Hn) as (p & Hp & Hrest).
      exists p, pth. split; [exact Hp|]. split; [done|]. exact Hrest.
    + apply (identity_ok_transfer st); try done.
      * intros sd'. rewrite Hse, lookup_insert_eq. intros [= <-]. eauto.
      * intros svc' Hs'. case_decide.
        -- destruct Hw as (svc & t & Hs & _ & Hs1). rewrite Hs1 in Hs'.
           injection Hs' as <-. exists svc. split; [done|]. split; [done|].
           intros path _ _ _ Hty. simpl. by rewrite lookup_insert_ne.
        -- rewrite Hw in Hs'. eauto.
  - destruct Hc as [Hnd Hc].
    destruct (poll_event_frame _ st (inp, level) Hc)
      as (st' & Hev & _ & Hse & _ & _ & _ & _ & Hn & _ & Hpv).
    unfold step. simpl. rewrite Hev. simpl.
    unfold step in Hi, Ha. simpl in Hi, Ha. rewrite Hev in Hi, Ha. simpl in Hi, Ha.
    apply (identity_ok_transfer st); try done.
    + intros sd'. rewrite Hse. eauto.
    + intros svc' Hs'. specialize (Hn j). specialize (Hpv j).
      unfold published in Hpv. rewrite Hs' in Hn, Hpv.
      destruct (services st !! j) as [svc|]; [|done].
      simpl in Hn, Hpv. injection Hn as Hn.
      exists svc. split; [done|]. split; [done|]. intros path ? ? ? _. by apply Hpv.
  - destruct (save_counters_spec st Hc) as (st' & Hev & _ & _ & _ & Hsv & _ & Hset).
    unfold step. simpl. rewrite Hev. simpl.
    unfold step in Hi, Ha. simpl in Hi, Ha. rewrite Hev in Hi, Ha. simpl in Hi, Ha.
    apply (identity_ok_transfer st); try done.
    + intros sd'. rewrite Hset. destruct (settings st !! j) as [sd|]; [|done].
      simpl. intros [= <-]. exists sd. split; [done|]. symmetry. apply saved_function.
    + intros svc'. rewrite Hsv. eauto.
Qed.

Lemma run_identity st ops j :
  consistent st → Forall valid_op ops → identity_ok st j → identity_ok (run st ops) j.
Proof.
  intros Hc Hv. revert st Hc. induction Hv as [| o ops Ho _ IH]; intros st Hc Hid.
  - done.
  - simpl. destruct (step_consistent st o Hc Ho) as (Hc1 & _ & _).
    apply IH; [done|]. by apply step_identity.
Qed.

(** X15: a service always says which line and which function it is for.
    In every state the program reaches from start-up by in-bounds settings
    writes, events and saves, a line that has a service has it under the
    name built from the function its settings now hold and its own number,
    with [/DeviceInstance] the line number, [/ProductId] and
    [/ProductName] those of that function, [/Connected] 1 and the
    management paths those given at registration. *)
Theorem service_identity_follows_settings a persisted ops inp :
  (∀ inp, settings_in_range (persisted inp)) →
  Forall valid_op ops →
  identity_ok (run (started a persisted) ops) inp.
Proof.
  intros Hr Hv.
  destruct (startup_spec a persisted Hr) as (_ & Hc & _).
  apply run_identity; [done | done |]. by apply started_identity.
Qed.

Lemma service_identity_follows_settings_witness :
  let ops := [op_pulse 1 1; op_setting 1 (write_function 2); op_save;
              op_setting 1 (write_inputtype 3)] in
  (∀ inp, settings_in_range (example_persisted inp)) ∧
  Forall valid_op ops ∧
  identity_ok (run (started example_args example_persisted) ops) 1.
Proof.
  assert (Hv : Forall valid_op
                 [op_pulse 1 1; op_setting 1 (write_function 2); op_save;
                  op_setting 1 (write_inputtype 3)]).
  { repeat constructor; simpl; rewrite ?MAXTYPE_eq; lia. }
  split; [apply example_in_range|]. split; [exact Hv|].
  apply service_identity_follows_settings; [apply example_in_range | exact Hv].
Defined.
